(** * perkeep.datasets.pipeline: a shallow embedding and its properties

    The module prepares samples for a training: filter, reduce, split,
    extend, shuffle, map, batch.  Lists stand for the finite sequences the
    pipeline walks over, generators are explicit resumable machines, and
    the random source of [random.shuffle] is threaded as a state. *)

From Stdlib Require Import ZArith Lia.
From stdpp Require Import base list gmap strings.

(** ** Python runtime notions used by the module *)

(** The exceptions that the modelled code paths can meet. *)
Inductive exn : Type :=
| KeyError
| IndexError
| StopIteration
| RuntimeError.

(** What a [next(gen)] call on a generator in state [S] comes to: it hands
    out a value and suspends in a new state, it raises, or the body is still
    running without having reached a [yield] when the [fuel] granted to
    the call is used up.  A call that is [OutOfFuel] for every amount of
    fuel never comes back. *)
Inductive resumed (S V : Type) : Type :=
| Yield (v : V) (s : S)
| Raise (e : exn)
| OutOfFuel.

Arguments Yield {S V} v s.
Arguments Raise {S V} e.
Arguments OutOfFuel {S V}.

(** [pull next k s]: the values of the first [k] calls of [next] on a
    generator started in state [s], as [itertools.islice(gen, k)] collects
    them. *)
Fixpoint pull {S V : Type} (next : S → resumed S V) (k : nat) (s : S)
  : resumed S (list V) :=
  match k with
  | O => Yield [] s
  | Datatypes.S k' =>
      match next s with
      | Yield v s' =>
          match pull next k' s' with
          | Yield vs s'' => Yield (v :: vs) s''
          | Raise e => Raise e
          | OutOfFuel => OutOfFuel
          end
      | Raise e => Raise e
      | OutOfFuel => OutOfFuel
      end
  end.

(** [nth_yield next k s]: the outcome of call number [k] (0-based) of
    [next], after [k] successful earlier calls. *)
Fixpoint nth_yield {S V : Type} (next : S → resumed S V) (k : nat) (s : S)
  : resumed S V :=
  match k with
  | O => next s
  | Datatypes.S k' =>
      match next s with
      | Yield _ s' => nth_yield next k' s'
      | Raise e => Raise e
      | OutOfFuel => OutOfFuel
      end
  end.

(** [any(iterable)] on truth values. *)
Fixpoint any (bs : list bool) : bool :=
  match bs with
  | [] => false
  | b :: bs' => if b then true else any bs'
  end.

(** [range(n)] for an integer [n]: empty when [n <= 0]. *)
Definition range (n : Z) : list Z :=
  (λ i : nat, Z.of_nat i) <$> seq 0 (Z.to_nat n).

(** [def identity(x): return x] *)
Definition identity {A : Type} (x : A) : A := x.

(** ** [random.shuffle] over an explicit random source *)

Module random.
Section shuffle.
Context {rng A : Type}.
(** [randbelow g n] draws an index for the bound [n] and returns the
    advanced source. *)
Variable randbelow : rng → nat → nat * rng.

(** [x[i], x[j] = x[j], x[i]]: both reads happen first, then [x[i]] is
    stored, then [x[j]]; an index outside the list raises. *)
Definition swap (x : list A) (i j : nat) : exn + list A :=
  match x !! j, x !! i with
  | Some xj, Some xi => inr (<[j := xi]> (<[i := xj]> x))
  | _, _ => inl IndexError
  end.

(** The body of [for i in reversed(range(1, len(x)))], entered with
    [i] = the number of indices still to visit. *)
Fixpoint shuffle_loop (i : nat) (g : rng) (x : list A)
  : exn + (list A * rng) :=
  match i with
  | O => inr (x, g)
  | S i' =>
      let '(j, g') := randbelow g (i + 1) in
      match swap x i j with
      | inr x' => shuffle_loop i' g' x'
      | inl e => inl e
      end
  end.

Definition shuffle (g : rng) (x : list A) : exn + (list A * rng) :=
  shuffle_loop (length x - 1) g x.
End shuffle.
End random.

(** ** Samples *)

Module Sample.
Section Sample.
Context {probe : Type} `{Countable probe} {value : Type}.

(** What [sample[probe_id]] comes to: a value, Python's [None]
    ([Returns None]), or an exception. *)
Inductive lookup : Type :=
  | Returns (v : option value)
  | Raises (e : exn).

(** A sample is either one handed in by the caller, known only through
    its item lookup and its keys, or a [ReducedSample] object with the
    attributes [delegate], [reduction] and [reduction_set]. *)
Inductive t : Type :=
  | Opaque (getitem : probe → lookup) (keys : list probe)
  | Reduced (delegate : t) (reduction : list probe)
            (reduction_set : gset probe).
End Sample.
Arguments lookup : clear implicits.
Arguments t probe {_ _} value.
End Sample.

Module ReducedSample.
Section ReducedSample.
Context {probe : Type} `{Countable probe} {value : Type}.
Local Abbreviation Sample := (Sample.t probe value).

(** [__init__(self, delegate, reduction)]; [frozenset(reduction)] is
    taken once, here. *)
Definition __init__ (delegate : Sample) (reduction : list probe)
  : Sample :=
  Sample.Reduced delegate reduction (list_to_set reduction).

(** [sample[probe_id]], dispatched on the class of [self]. *)
Fixpoint __getitem__ (self : Sample) (probe_id : probe)
  : Sample.lookup value :=
  match self with
  | Sample.Opaque getitem _ => getitem probe_id
  | Sample.Reduced delegate _ reduction_set =>
      if decide (probe_id ∈ reduction_set)
      then __getitem__ delegate probe_id
      else Sample.Returns None
  end.

(** [sample.keys()] *)
Definition keys (self : Sample) : list probe :=
  match self with
  | Sample.Opaque _ keys => keys
  | Sample.Reduced _ reduction _ => reduction
  end.
End ReducedSample.
End ReducedSample.

(** ** XYAdapter *)

Module XYAdapter.
Section XYAdapter.
Context {A B : Type}.

Record t : Type := __init__ {
    samples : list A;
    mapper : A → B;
    batch_size : Z
  }.

Definition __len__ (self : t) : nat := length (samples self).

(** Control points of the generator [__iter__]: at the head of
    [while True], or inside the [for] with the list iterator about to
    read index [i]. *)
Inductive iter_pc : Type :=
  | AtWhile
  | AtFor (i : nat).

(** A fresh generator object. *)
Definition __iter__ (self : t) : iter_pc := AtWhile.

(** One transition of the body; [Some v] when it reaches the [yield]. *)
Definition iter_step (self : t) (pc : iter_pc) : iter_pc * option B :=
  match pc with
  | AtWhile => (AtFor 0, None)
  | AtFor i =>
      match samples self !! i with
      | Some sample => (AtFor (S i), Some (mapper self sample))
      | None => (AtWhile, None)
      end
  end.

(** [next(it)]: run the body to its next [yield]. *)
Fixpoint iter_next (fuel : nat) (self : t) (pc : iter_pc)
  : resumed iter_pc B :=
  match fuel with
  | O => OutOfFuel
  | S fuel' =>
      match iter_step self pc with
      | (pc', Some v) => Yield v pc'
      | (pc', None) => iter_next fuel' self pc'
      end
  end.

(** How many samples of the current pass the generator has consumed. *)
Definition offset (pc : iter_pc) : nat :=
  match pc with
  | AtWhile => 0
  | AtFor i => i
  end.

(** The control points from which the next value is the first sample. *)
Definition at_pass_start (self : t) (pc : iter_pc) : Prop :=
  pc = AtWhile ∨ pc = AtFor 0 ∨ pc = AtFor (length (samples self)).

(** Control points of the generator [batch_arrays]: not yet started, or
    suspended at its [yield] holding [sample_iter]. *)
Inductive batch_pc : Type :=
  | BatchNew
  | BatchWhile (sample_iter : iter_pc).

Definition batch_arrays (self : t) : batch_pc := BatchNew.

(** [for i in range(self.batch_size): batch_array.append(next(sample_iter))].
    A [StopIteration] leaving [next] inside a generator body surfaces as
    a [RuntimeError]. *)
Fixpoint batch_fill (fuel : nat) (self : t) (idxs : list Z)
    (batch_array : list B) (sample_iter : iter_pc)
  : resumed iter_pc (list B) :=
  match idxs with
  | [] => Yield batch_array sample_iter
  | _ :: idxs' =>
      match iter_next fuel self sample_iter with
      | Yield v sample_iter' =>
          batch_fill fuel self idxs' (batch_array ++ [v]) sample_iter'
      | Raise StopIteration => Raise RuntimeError
      | Raise e => Raise e
      | OutOfFuel => OutOfFuel
      end
  end.

(** The sample generator a [batch_arrays] generator works on:
    [sample_iter = iter(self)] runs when the body is first entered. *)
Definition sample_iter_of (self : t) (pc : batch_pc) : iter_pc :=
  match pc with
  | BatchNew => __iter__ self
  | BatchWhile sample_iter => sample_iter
  end.

(** [next(batches)] *)
Definition batch_next (fuel : nat) (self : t) (pc : batch_pc)
  : resumed batch_pc (list B) :=
  match batch_fill fuel self (range (batch_size self)) []
          (sample_iter_of self pc) with
  | Yield batch_array sample_iter' =>
      Yield batch_array (BatchWhile sample_iter')
  | Raise e => Raise e
  | OutOfFuel => OutOfFuel
  end.
End XYAdapter.
Arguments t : clear implicits.
End XYAdapter.

(** ** Pipeline *)

Module Pipeline.
Section Pipeline.
Context {probe : Type} `{Countable probe} {value : Type}.
Context {XY fraction rng : Type}.
Local Abbreviation Sample := (Sample.t probe value).

(** The random source behind [random.shuffle]. *)
Variable randbelow : rng → nat → nat * rng.
(** [common.split], defined outside this module: it receives the samples
    and the category fractions and returns the samples of each category. *)
Variable common_split :
  list Sample → gmap string fraction → gmap string (list Sample).

(** An entry of [reducers] is a callable or a collection of probe ids. *)
Inductive reducer : Type :=
  | Callable (f : Sample → Sample)
  | KeyCollection (reduction : list probe).

Record t : Type := {
    filters : list (Sample → bool);
    reducers : list reducer;
    categories : gmap string fraction;
    extenders : list (Sample → list Sample);
    mapper : Sample → XY;
    batch_size : Z;
    shuffle : bool
  }.

(** [for reducer in self.reducers: ...; return sample] *)
Fixpoint reduce_loop (rs : list reducer) (sample : Sample) : Sample :=
  match rs with
  | [] => sample
  | Callable f :: rs' => reduce_loop rs' (f sample)
  | KeyCollection reduction :: rs' =>
      reduce_loop rs' (ReducedSample.__init__ sample reduction)
  end.

Definition _reduce_sample (self : t) (sample : Sample) : Sample :=
  reduce_loop (reducers self) sample.

(** The samples the generator [_reduced_samples] yields, in order. *)
Fixpoint _reduced_samples (self : t) (samples : list Sample)
  : list Sample :=
  match samples with
  | [] => []
  | sample :: samples' =>
      if (0 <? length (filters self))
         && negb (any ((λ f, f sample) <$> filters self))
      then _reduced_samples self samples'
      else _reduce_sample self sample :: _reduced_samples self samples'
  end.

(** The filter stage as the specification words it: a sample is kept
    iff the filter list is empty or some filter accepts it. *)
Definition survives_spec (self : t) (sample : Sample) : bool :=
  match filters self with
  | [] => true
  | _ :: _ => existsb (λ f, f sample) (filters self)
  end.

(** Filter, then reduce, written out by hand. *)
Definition filter_then_reduce_spec (self : t) (samples : list Sample)
  : list Sample :=
  map (_reduce_sample self) (List.filter (survives_spec self) samples).

(** [itertools.chain] over the list [[extender(s) for s in
    extended_samples]], spread as its arguments. *)
Fixpoint chain_extender (extender : Sample → list Sample)
    (extended_samples : list Sample) : list Sample :=
  match extended_samples with
  | [] => []
  | s :: rest => extender s ++ chain_extender extender rest
  end.

(** [for extender in self.extenders: extended_samples = chain(...)] *)
Fixpoint extend_loop (es : list (Sample → list Sample))
    (extended_samples : list Sample) : list Sample :=
  match es with
  | [] => extended_samples
  | extender :: es' =>
      extend_loop es' (chain_extender extender extended_samples)
  end.

(** The samples the generator [_extended_samples] yields, in order. *)
Fixpoint _extended_samples (self : t) (samples : list Sample)
  : list Sample :=
  match samples with
  | [] => []
  | sample :: samples' =>
      extend_loop (extenders self) [sample]
        ++ _extended_samples self samples'
  end.

(** [append_reduced_samples]; the output is any object with an
    [append] method, the input a sequence the appends leave alone. *)
Definition append_reduced_samples {sink : Type}
    (append : sink → Sample → sink)
    (self : t) (samples_input : list Sample) (samples_output : sink)
  : sink :=
  foldl append samples_output (_reduced_samples self samples_input).

(** [list.append] *)
Definition list_append (l : list Sample) (x : Sample) : list Sample :=
  l ++ [x].

Definition get (self : t) (g : rng) (samples : list Sample)
  : exn + (XYAdapter.t Sample XY * rng) :=
  let samples := _reduced_samples self samples in
  let samples := _extended_samples self samples in
  if shuffle self then
    match random.shuffle randbelow g samples with
    | inr (samples, g') =>
        inr (XYAdapter.__init__ samples (mapper self) (batch_size self), g')
    | inl e => inl e
    end
  else
    inr (XYAdapter.__init__ samples (mapper self) (batch_size self), g).

Definition split (self : t) (g : rng) (samples : list Sample)
  : exn + (gmap string (XYAdapter.t Sample XY) * rng) :=
  let reduced_samples := _reduced_samples self samples in
  let splitted_samples := common_split reduced_samples (categories self) in
  let wrap (splitted_samples : gmap string (list Sample)) :=
    (λ s, XYAdapter.__init__ s (mapper self) (batch_size self))
      <$> splitted_samples in
  match splitted_samples !! "train" with
  | Some train =>
      let train := _extended_samples self train in
      if shuffle self then
        match random.shuffle randbelow g train with
        | inr (train, g') =>
            inr (wrap (<["train" := train]> splitted_samples), g')
        | inl e => inl e
        end
      else inr (wrap (<["train" := train]> splitted_samples), g)
  | None => inr (wrap splitted_samples, g)
  end.
End Pipeline.
Arguments t probe {_ _} value XY fraction.
Arguments reducer probe {_ _} value.

(** [Pipeline()].  The float literals [0.8] and [0.1] of the default
    categories are handed in as [f_0_8] and [f_0_1]. *)
Definition __init__ {probe : Type} `{Countable probe} {value fraction : Type}
    (f_0_8 f_0_1 : fraction)
  : t probe value (Sample.t probe value) fraction := {|
  filters := [];
  reducers := [];
  categories := {["train" := f_0_8; "validate" := f_0_1; "test" := f_0_1]};
  extenders := [];
  mapper := identity;
  batch_size := 128;
  shuffle := true
|}.
End Pipeline.

(** ** Concrete samples and pipelines to run the definitions on *)

Module Fixture.
Local Abbreviation Sample := (Sample.t string nat).

(** A [dict] used as a sample: a missing key raises [KeyError]. *)
Definition dict_sample (items : list (string * nat)) : Sample :=
  Sample.Opaque
    (λ probe_id,
       match (list_to_map items : gmap string nat) !! probe_id with
       | Some v => Sample.Returns (Some v)
       | None => Sample.Raises KeyError
       end)
    (items.*1).

Definition abc : Sample := dict_sample [("a", 1); ("b", 2); ("c", 3)].
Definition low : Sample := dict_sample [("value", 2)].
Definition high : Sample := dict_sample [("value", 7)].

(** [lambda s: s['value'] > 5] *)
Definition value_above_5 (s : Sample) : bool :=
  match ReducedSample.__getitem__ s "value" with
  | Sample.Returns (Some v) => 5 <? v
  | _ => false
  end.

Definition twice (s : Sample) : list Sample := [s; s].
Definition thrice (s : Sample) : list Sample := [s; s; s].

(** A pipeline with every stage switched off. *)
Definition plain : Pipeline.t string nat Sample nat := {|
  Pipeline.filters := [];
  Pipeline.reducers := [];
  Pipeline.categories := ∅;
  Pipeline.extenders := [];
  Pipeline.mapper := identity;
  Pipeline.batch_size := 128;
  Pipeline.shuffle := false
|}.

(** A pipeline with a filter, a key reducer, two extenders and shuffling. *)
Definition busy : Pipeline.t string nat Sample nat := {|
  Pipeline.filters := [value_above_5];
  Pipeline.reducers := [Pipeline.KeyCollection ["value"]];
  Pipeline.categories := {["train" := 8; "test" := 2]};
  Pipeline.extenders := [twice; thrice];
  Pipeline.mapper := identity;
  Pipeline.batch_size := 2;
  Pipeline.shuffle := true
|}.

(** The same filters and reducers as [busy], nothing else in common. *)
Definition busy_quiet : Pipeline.t string nat Sample nat := {|
  Pipeline.filters := [value_above_5];
  Pipeline.reducers := [Pipeline.KeyCollection ["value"]];
  Pipeline.categories := ∅;
  Pipeline.extenders := [];
  Pipeline.mapper := identity;
  Pipeline.batch_size := 128;
  Pipeline.shuffle := false
|}.

(** Two key reducers in a row, nothing else. *)
Definition two_key_reducers : Pipeline.t string nat Sample nat := {|
  Pipeline.filters := [];
  Pipeline.reducers :=
    [Pipeline.KeyCollection ["a"; "b"]; Pipeline.KeyCollection ["b"; "c"]];
  Pipeline.categories := ∅;
  Pipeline.extenders := [];
  Pipeline.mapper := identity;
  Pipeline.batch_size := 128;
  Pipeline.shuffle := false
|}.

(** [busy] with a second filter appended. *)
Definition busy_two_filters : Pipeline.t string nat Sample nat := {|
  Pipeline.filters := [value_above_5; λ _, true];
  Pipeline.reducers := [Pipeline.KeyCollection ["value"]];
  Pipeline.categories := {["train" := 8; "test" := 2]};
  Pipeline.extenders := [twice; thrice];
  Pipeline.mapper := identity;
  Pipeline.batch_size := 2;
  Pipeline.shuffle := true
|}.

(** [busy] without its filters and reducers, for a corpus reduced
    beforehand. *)
Definition busy_on_corpus : Pipeline.t string nat Sample nat := {|
  Pipeline.filters := [];
  Pipeline.reducers := [];
  Pipeline.categories := {["train" := 8; "test" := 2]};
  Pipeline.extenders := [twice; thrice];
  Pipeline.mapper := identity;
  Pipeline.batch_size := 2;
  Pipeline.shuffle := true
|}.

(** One filter and nothing else. *)
Definition only_filter : Pipeline.t string nat Sample nat := {|
  Pipeline.filters := [value_above_5];
  Pipeline.reducers := [];
  Pipeline.categories := ∅;
  Pipeline.extenders := [];
  Pipeline.mapper := identity;
  Pipeline.batch_size := 128;
  Pipeline.shuffle := false
|}.

(** A random source: a counter, drawn from by a linear congruence. *)
Definition randbelow (g : nat) (n : nat) : nat * nat :=
  ((g * 7 + 3) mod n, S g).

(** A split that sends the first sample to ["test"] and the others to
    ["train"], whatever the fractions. *)
Definition first_to_test (samples : list Sample) (categories : gmap string nat)
  : gmap string (list Sample) :=
  {["test" := take 1 samples; "train" := drop 1 samples]}.

(** A split with no ["train"] category. *)
Definition all_to_test (samples : list Sample) (categories : gmap string nat)
  : gmap string (list Sample) :=
  {["test" := samples]}.
End Fixture.

(** ** perkeep and perkeep.pkhttp: the client's configuration and opener

    The two modules define the same functions for finding the client
    configuration, picking the default server and building the HTTP
    opener.  The file system and the process environment are a [world]
    value, the module globals a [globals] value threaded through the
    calls; [json.load] and [os.path.join] are parameters. *)

Module perkeep.
Import Stdlib.Strings.Ascii.

Inductive error : Type :=
| KeyError (key : string)
| TypeError
| AttributeError
| ValueError
| FileNotFoundError
| Exception (message : string).




(** [ssl.CERT_NONE] and its siblings. *)
Inductive verify_mode : Type :=
| CERT_NONE
| CERT_OPTIONAL
| CERT_REQUIRED.

(** What the process sees outside itself: [os.environ],
    [platform.system()], [os.path.expanduser('~')] and the text files
    that [open(path, 'r')] can read, by path. *)
Record world : Type := {
  environ : gmap string string;
  system : string;
  home : string;
  files : gmap string string
}.

Section client.
Context {number : Type}.

(** The values [json.load] returns; [JNone] is [None]. *)
Local Unset Elimination Schemes.
Inductive json : Type :=
| JNone
| JBool (b : bool)
| JNumber (n : number)
| JStr (s : string)
| JList (items : list json)
| JDict (items : list (string * json)).
Local Set Elimination Schemes.

(** [bool(n)] for a number of a JSON document. *)
Variable number_bool : number → bool.
(** [os.path.join] on the list of its arguments. *)
Variable path_join : list string → string.
(** [json.load] on the text of a file. *)
Variable json_load : string → error + json.

(** [bool(v)] *)
Definition truth (v : json) : bool :=
  match v with
  | JNone => false
  | JBool b => b
  | JNumber n => number_bool n
  | JStr s => negb (String.eqb s "")
  | JList items => match items with [] => false | _ :: _ => true end
  | JDict items => match items with [] => false | _ :: _ => true end
  end.

(** The value stored under [key] in the items of a [dict]. *)
Fixpoint dict_get (key : string) (items : list (string * json))
  : option json :=
  match items with
  | [] => None
  | (k, v) :: items' => if String.eqb k key then Some v else dict_get key items'
  end.

(** [v[key]] for a string [key]: only a [dict] can be indexed so. *)
Definition getitem (v : json) (key : string) : error + json :=
  match v with
  | JDict items =>
      match dict_get key items with
      | Some x => inr x
      | None => inl (KeyError key)
      end
  | _ => inl TypeError
  end.

(** A server entry whose ["default"] is there and counts as false. *)
Definition not_default (server : json) : Prop :=
  ∃ d, getitem server "default" = inr d ∧ truth d = false.

(** [v.values()] *)
Definition values (v : json) : error + list json :=
  match v with
  | JDict items => inr (items.*2)
  | _ => inl AttributeError
  end.


(** The opener [build_opener(https_handler)] with the basic-auth handler
    added: the settings of its TLS context and the one password
    registered. *)
Record opener : Type := {
  check_hostname : bool;
  tls_verify_mode : verify_mode;
  realm : string;
  uri : json;
  user : string;
  passwd : string
}.

(** The module globals [perkeep_opener] and [client_config_cache]. *)
Record globals : Type := {
  perkeep_opener : option opener;
  client_config_cache : json
}.

Definition get_perkeep_config_dir_path (w : world) : string :=
  match environ w !! "CAMLI_CONFIG_DIR" with
  | Some dir => dir
  | None =>
      if String.eqb (system w) "Windows"
      then path_join [home w; "AppData"; "Roaming"; "Camlistore"]
      else path_join [home w; ".config"; "camlistore"]
  end.

Definition read_client_config (w : world) : error + json :=
  let config_dir := get_perkeep_config_dir_path w in
  match files w !! path_join [config_dir; "client-config.json"] with
  | Some text => json_load text
  | None => inl FileNotFoundError
  end.

Definition get_client_config (w : world) (g : globals)
  : (error + json) * globals :=
  match client_config_cache g with
  | JNone =>
      match read_client_config w with
      | inr config =>
          (inr config,
           {| perkeep_opener := perkeep_opener g;
              client_config_cache := config |})
      | inl e => (inl e, g)
      end
  | config => (inr config, g)
  end.

(** [for server in ...values(): if(not server['default']): continue;
    return server], then the [raise] after the loop. *)
Fixpoint first_default (servers : list json) : error + json :=
  match servers with
  | [] => inl (Exception "No default server found")
  | server :: servers' =>
      match getitem server "default" with
      | inl e => inl e
      | inr d => if truth d then inr server else first_default servers'
      end
  end.

Definition get_default_server_config (w : world) (g : globals)
  : (error + json) * globals :=
  match get_client_config w g with
  | (inl e, g') => (inl e, g')
  | (inr config, g') =>
      (match getitem config "servers" with
       | inl e => inl e
       | inr servers =>
           match values servers with
           | inl e => inl e
           | inr vs => first_default vs
           end
       end, g')
  end.

End client.
Arguments json : clear implicits.
Arguments opener : clear implicits.
Arguments globals : clear implicits.

(** A world and a configuration to run the definitions on. *)
Definition nonzero (n : Z) : bool := negb (n =? 0)%Z.
Definition slash_join (parts : list string) : string :=
  String.concat "/" parts.

Definition example_server : json Z :=
  JDict [("server", JStr "https://localhost:3179");
         ("auth", JStr "userpass:alice:secret");
         ("default", JBool true)].

Definition example_other_server : json Z :=
  JDict [("server", JStr "https://example.org");
         ("auth", JStr "userpass:bob:a:b");
         ("default", JBool false)].

Definition example_config : json Z :=
  JDict [("servers",
          JDict [("other", example_other_server);
                 ("local", example_server)])].

(** A [json.load] that knows one text. *)
Definition example_json_load (text : string) : error + json Z :=
  if String.eqb text "CONFIG" then inr example_config else inl ValueError.

Definition example_world : world := {|
  environ := {["CAMLI_CONFIG_DIR" := "/etc/perkeep"]};
  system := "Linux";
  home := "/home/alice";
  files := {["/etc/perkeep/client-config.json" := "CONFIG"]}
|}.

Definition empty_world : world := {|
  environ := ∅;
  system := "Linux";
  home := "/home/alice";
  files := ∅
|}.

Definition fresh_globals : globals Z := {|
  perkeep_opener := None;
  client_config_cache := JNone
|}.
End perkeep.

(** * Properties *)

(** ** The adapter's two generators *)

Section XYAdapter_facts.
Context {A B : Type}.
Implicit Types (self : XYAdapter.t A B) (pc : XYAdapter.iter_pc).
Import XYAdapter.

Lemma mod_succ_wrap (n o : nat) :
  0 < n → o mod n + 1 ≤ n ∧ ∀ k, (o mod n + 1 + k) mod n = (o + S k) mod n.
Proof.
  intros Hn. split.
  - pose proof (Nat.mod_upper_bound o n). lia.
  - intros k. replace (o mod n + 1 + k) with (o mod n + S k) by lia.
    apply Nat.Div0.add_mod_idemp_l.
Qed.

(** One [next] on a non-empty adapter: the sample at the current offset
    (wrapping to a new pass at the end) is mapped and handed out. *)
Lemma iter_next_yields self pc fuel :
  samples self ≠ [] → 3 ≤ fuel → offset pc ≤ length (samples self) →
  ∃ s pc',
    samples self !! (offset pc mod length (samples self)) = Some s
    ∧ iter_next fuel self pc = Yield (mapper self s) pc'
    ∧ offset pc' = offset pc mod length (samples self) + 1.
Proof.
  intros Hne Hfuel Hoff.
  assert (Hn : 0 < length (samples self))
    by (destruct (samples self); [done | simpl; lia]).
  assert (∃ s0, samples self !! 0 = Some s0) as [s0 Hs0]
    by (apply lookup_lt_is_Some; lia).
  destruct fuel as [|[|[|fuel]]]; try lia.
  destruct pc as [|i]; cbn [iter_next iter_step offset] in *.
  - rewrite Hs0, Nat.Div0.mod_0_l. by exists s0, (AtFor 1).
  - destruct (samples self !! i) as [s|] eqn:Hi.
    + apply lookup_lt_Some in Hi as Hlt.
      rewrite Nat.mod_small by done.
      exists s, (AtFor (S i)). cbn [offset]. split_and!; [done|done|lia].
    + apply lookup_ge_None in Hi.
      assert (i = length (samples self)) as -> by lia.
      rewrite Nat.Div0.mod_same. cbn [iter_next iter_step]. rewrite Hs0.
      by exists s0, (AtFor 1).
Qed.

Lemma nth_yield_iter self pc fuel k :
  samples self ≠ [] → 3 ≤ fuel → offset pc ≤ length (samples self) →
  ∃ s pc',
    samples self !! ((offset pc + k) mod length (samples self)) = Some s
    ∧ nth_yield (iter_next fuel self) k pc = Yield (mapper self s) pc'.
Proof.
  intros Hne Hfuel. revert pc.
  assert (Hn : 0 < length (samples self))
    by (destruct (samples self); [done | simpl; lia]).
  induction k as [|k IH]; intros pc Hoff.
  - destruct (iter_next_yields self pc fuel) as (s & pc' & Hs & Hnext & _);
      [done..|].
    exists s, pc'. by rewrite Nat.add_0_r.
  - destruct (iter_next_yields self pc fuel) as (s & pc' & _ & Hnext & Hoff');
      [done..|].
    destruct (mod_succ_wrap (length (samples self)) (offset pc) Hn)
      as [Hle Hmod].
    destruct (IH pc') as (s' & pc'' & Hs' & Hnth); [lia|].
    exists s', pc''. simpl. rewrite Hnext. split; [|done].
    by rewrite <- Hmod, <- Hoff'.
Qed.

(** Filling a batch: each index of the [range] takes one more sample of
    the cycle. *)
Lemma batch_fill_yields self fuel (idxs : list Z) batch_array pc :
  samples self ≠ [] → 3 ≤ fuel → offset pc ≤ length (samples self) →
  ∃ vs pc',
    batch_fill fuel self idxs batch_array pc = Yield (batch_array ++ vs) pc'
    ∧ length vs = length idxs
    ∧ offset pc' ≤ length (samples self)
    ∧ offset pc' mod length (samples self)
      = (offset pc + length idxs) mod length (samples self)
    ∧ ∀ j, j < length idxs →
        ∃ s, samples self !! ((offset pc + j) mod length (samples self))
             = Some s
             ∧ vs !! j = Some (mapper self s).
Proof.
  intros Hne Hfuel.
  assert (Hn : 0 < length (samples self))
    by (destruct (samples self); [done | simpl; lia]).
  revert batch_array pc.
  induction idxs as [|i idxs IH]; intros batch_array pc Hoff.
  - exists [], pc. simpl. rewrite app_nil_r, Nat.add_0_r.
    split_and!; [done..|]. intros j ?; lia.
  - destruct (iter_next_yields self pc fuel) as (s & pc1 & Hs & Hnext & Hoff1);
      [done..|].
    destruct (mod_succ_wrap (length (samples self)) (offset pc) Hn)
      as [Hle Hmod].
    destruct (IH (batch_array ++ [mapper self s]) pc1)
      as (vs & pc' & Hfill & Hlen & Hoff' & Hmod' & Hvs); [lia|].
    exists (mapper self s :: vs), pc'. simpl. rewrite Hnext, Hfill.
    rewrite <- app_assoc. simpl. split_and!; [done|by rewrite Hlen|done|..].
    + rewrite Hmod', Hoff1.
      rewrite <- (Hmod (length idxs)). f_equal.
    + intros [|j] Hj.
      * exists s. by rewrite Nat.add_0_r.
      * destruct (Hvs j) as (s' & Hs' & Hj'); [lia|].
        exists s'. split; [|done].
        by rewrite <- Hmod, <- Hoff1.
Qed.

Lemma length_range (n : Z) : length (range n) = Z.to_nat n.
Proof. unfold range. by rewrite length_fmap, length_seq. Qed.

Lemma mod_congr_add (n a b c : nat) :
  a mod n = b mod n → (a + c) mod n = (b + c) mod n.
Proof.
  intros Hab.
  rewrite <- (Nat.Div0.add_mod_idemp_l a), <- (Nat.Div0.add_mod_idemp_l b).
  by rewrite Hab.
Qed.

Lemma batch_next_yields self fuel (bpc : batch_pc) :
  samples self ≠ [] → 3 ≤ fuel →
  offset (sample_iter_of self bpc) ≤ length (samples self) →
  ∃ batch pc',
    batch_next fuel self bpc = Yield batch (BatchWhile pc')
    ∧ length batch = Z.to_nat (batch_size self)
    ∧ offset pc' ≤ length (samples self)
    ∧ offset pc' mod length (samples self)
      = (offset (sample_iter_of self bpc) + Z.to_nat (batch_size self))
          mod length (samples self)
    ∧ ∀ j, j < Z.to_nat (batch_size self) →
        ∃ s, samples self
               !! ((offset (sample_iter_of self bpc) + j)
                     mod length (samples self)) = Some s
             ∧ batch !! j = Some (mapper self s).
Proof.
  intros Hne Hfuel Hoff.
  destruct (batch_fill_yields self fuel (range (batch_size self)) []
              (sample_iter_of self bpc))
    as (vs & pc' & Hfill & Hlen & Hoff' & Hmod & Hvs); [done..|].
  rewrite length_range in *.
  exists vs, pc'. unfold batch_next. rewrite Hfill. done.
Qed.

Lemma nth_yield_batch self fuel k (bpc : batch_pc) (o : nat) :
  samples self ≠ [] → 3 ≤ fuel →
  offset (sample_iter_of self bpc) ≤ length (samples self) →
  offset (sample_iter_of self bpc) mod length (samples self)
    = o mod length (samples self) →
  ∃ batch bpc',
    nth_yield (batch_next fuel self) k bpc = Yield batch bpc'
    ∧ length batch = Z.to_nat (batch_size self)
    ∧ ∀ j, j < Z.to_nat (batch_size self) →
        ∃ s, samples self
               !! ((o + k * Z.to_nat (batch_size self) + j)
                     mod length (samples self)) = Some s
             ∧ batch !! j = Some (mapper self s).
Proof.
  intros Hne Hfuel. revert bpc o.
  induction k as [|k IH]; intros bpc o Hoff Hmod;
    destruct (batch_next_yields self fuel bpc)
      as (batch & pc' & Hnext & Hlen & Hoff' & Hmod' & Hvs); try done.
  - exists batch, (BatchWhile pc'). cbn [nth_yield].
    split_and!; [done..|]. intros j Hj.
    destruct (Hvs j Hj) as (s & Hs & Hb). exists s. split; [|done].
    rewrite <- Hs, Nat.add_0_r. f_equal. symmetry. by apply mod_congr_add.
  - destruct (IH (BatchWhile pc') (o + Z.to_nat (batch_size self)))
      as (batch' & bpc' & Hnth & Hlen' & Hvs'); [done|..].
    { cbn [sample_iter_of]. rewrite Hmod'. by apply mod_congr_add. }
    exists batch', bpc'. cbn [nth_yield]. rewrite Hnext.
    split_and!; [done..|]. intros j Hj.
    destruct (Hvs' j Hj) as (s & Hs & Hb). exists s. split; [|done].
    rewrite <- Hs. f_equal. f_equal. cbn [Nat.mul]. lia.
Qed.

(** With nothing to count in [range(self.batch_size)], a batch is
    complete before any sample is asked for. *)
Lemma batch_next_nonpositive self fuel (bpc : batch_pc) :
  (batch_size self ≤ 0)%Z →
  batch_next fuel self bpc
  = Yield [] (BatchWhile (sample_iter_of self bpc)).
Proof.
  intros Hb. unfold batch_next, range.
  replace (Z.to_nat (batch_size self)) with 0 by lia. done.
Qed.

(** An adapter without samples: the body keeps going round
    [while True] and the empty [for]. *)
Lemma iter_next_empty self fuel pc :
  samples self = [] → iter_next fuel self pc = OutOfFuel.
Proof.
  intros Hs. revert pc.
  induction fuel as [|fuel IH]; intros pc; [done|].
  destruct pc as [|i]; cbn [iter_next iter_step].
  - apply IH.
  - rewrite Hs, lookup_nil. apply IH.
Qed.
End XYAdapter_facts.

(** C1. On an adapter over the non-empty samples [s0..s(n-1)] with mapper
    [m], call number [k] (0-based) of [next] on the iterator returns
    [m(s(k mod n))], for every [k]; and over [[s1; s2; s3]] with the
    identity mapper the first seven values are
    [[s1; s2; s3; s1; s2; s3; s1]]. *)
Theorem iter_cycles_through_samples :
  (∀ (A B : Type) (self : XYAdapter.t A B) (fuel k : nat),
      XYAdapter.samples self ≠ [] → 3 ≤ fuel →
      ∃ s pc',
        XYAdapter.samples self !! (k mod length (XYAdapter.samples self))
        = Some s
        ∧ nth_yield (XYAdapter.iter_next fuel self) k (XYAdapter.__iter__ self)
          = Yield (XYAdapter.mapper self s) pc')
  ∧ (∀ (A : Type) (s1 s2 s3 : A) (batch_size : Z) (fuel : nat),
      3 ≤ fuel →
      ∃ pc',
        pull (XYAdapter.iter_next fuel
                (XYAdapter.__init__ [s1; s2; s3] identity batch_size)) 7
             (XYAdapter.__iter__
                (XYAdapter.__init__ [s1; s2; s3] identity batch_size))
        = Yield [s1; s2; s3; s1; s2; s3; s1] pc').
Proof.
  split.
  - intros A B self fuel k Hne Hfuel.
    destruct (nth_yield_iter self (XYAdapter.__iter__ self) fuel k)
      as (s & pc' & Hs & Hnth); [done|done|simpl; lia|].
    by exists s, pc'.
  - intros A s1 s2 s3 batch_size fuel Hfuel.
    destruct fuel as [|[|[|fuel]]]; try lia.
    eexists. reflexivity.
Qed.

Lemma iter_cycles_through_samples_witness :
  (∃ s pc',
      [10; 20; 30] !! (4 mod 3) = Some s
      ∧ nth_yield
          (XYAdapter.iter_next 3 (XYAdapter.__init__ [10; 20; 30] S 2%Z)) 4
          XYAdapter.AtWhile
        = Yield (S s) pc')
  ∧ (∃ pc',
      pull (XYAdapter.iter_next 5
              (XYAdapter.__init__ [1; 2; 3] identity 2%Z)) 7
           XYAdapter.AtWhile
      = Yield [1; 2; 3; 1; 2; 3; 1] pc').
Proof.
  split.
  - apply (proj1 iter_cycles_through_samples nat nat
             (XYAdapter.__init__ [10; 20; 30] S 2%Z) 3 4); [done | lia].
  - apply (proj2 iter_cycles_through_samples nat 1 2 3 2%Z 5); lia.
Defined.

(** C2. On an adapter over [n > 0] samples with mapper [m] and a positive
    [batch_size] [b], every call of [next] on [batch_arrays()] returns a
    batch of exactly [b] elements, and element [j] of batch number [k] is
    [m(s((k*b + j) mod n))]; over [[s1; s2; s3]] with the identity mapper
    and [batch_size = 2] the first two batches are [[s1; s2]] and
    [[s3; s1]]. *)
Theorem batch_arrays_cycles_in_batches :
  (∀ (A B : Type) (self : XYAdapter.t A B) (fuel k : nat),
      XYAdapter.samples self ≠ [] → (0 < XYAdapter.batch_size self)%Z →
      3 ≤ fuel →
      ∃ batch bpc',
        nth_yield (XYAdapter.batch_next fuel self) k
                  (XYAdapter.batch_arrays self)
        = Yield batch bpc'
        ∧ Z.of_nat (length batch) = XYAdapter.batch_size self
        ∧ ∀ j, j < Z.to_nat (XYAdapter.batch_size self) →
            ∃ s, XYAdapter.samples self
                   !! ((k * Z.to_nat (XYAdapter.batch_size self) + j)
                         mod length (XYAdapter.samples self)) = Some s
                 ∧ batch !! j = Some (XYAdapter.mapper self s))
  ∧ (∀ (A : Type) (s1 s2 s3 : A) (fuel : nat),
      3 ≤ fuel →
      ∃ bpc',
        pull (XYAdapter.batch_next fuel
                (XYAdapter.__init__ [s1; s2; s3] identity 2%Z)) 2
             (XYAdapter.batch_arrays
                (XYAdapter.__init__ [s1; s2; s3] identity 2%Z))
        = Yield [[s1; s2]; [s3; s1]] bpc').
Proof.
  split.
  - intros A B self fuel k Hne Hb Hfuel.
    destruct (nth_yield_batch self fuel k (XYAdapter.batch_arrays self) 0)
      as (batch & bpc' & Hnth & Hlen & Hvs); [done|done|simpl; lia|done|].
    exists batch, bpc'. split_and!; [done|lia|done].
  - intros A s1 s2 s3 fuel Hfuel.
    destruct fuel as [|[|[|fuel]]]; try lia.
    eexists. reflexivity.
Qed.

Lemma batch_arrays_cycles_in_batches_witness :
  (∃ batch bpc',
      nth_yield
        (XYAdapter.batch_next 3 (XYAdapter.__init__ [10; 20; 30] S 2%Z)) 1
        XYAdapter.BatchNew
      = Yield batch bpc'
      ∧ Z.of_nat (length batch) = 2%Z
      ∧ ∀ j, j < Z.to_nat 2 →
          ∃ s, [10; 20; 30] !! ((1 * Z.to_nat 2 + j) mod 3) = Some s
               ∧ batch !! j = Some (S s))
  ∧ (∃ bpc',
      pull (XYAdapter.batch_next 4
              (XYAdapter.__init__ [1; 2; 3] identity 2%Z)) 2
           XYAdapter.BatchNew
      = Yield [[1; 2]; [3; 1]] bpc').
Proof.
  split.
  - apply (proj1 batch_arrays_cycles_in_batches nat nat
             (XYAdapter.__init__ [10; 20; 30] S 2%Z) 3 1);
      [done | reflexivity | lia].
  - apply (proj2 batch_arrays_cycles_in_batches nat 1 2 3 4); lia.
Defined.

(** C9. On an adapter without samples, [next] on the iterator and, for a
    positive [batch_size], [next] on [batch_arrays()] neither raise nor
    hand out a value, whatever time they are given: the very first call
    never comes back, so no output element is ever produced. *)
Theorem empty_adapter_stalls :
  ∀ (A B : Type) (self : XYAdapter.t A B) (fuel : nat),
    XYAdapter.samples self = [] →
    XYAdapter.iter_next fuel self (XYAdapter.__iter__ self) = OutOfFuel
    ∧ ((0 < XYAdapter.batch_size self)%Z →
       XYAdapter.batch_next fuel self (XYAdapter.batch_arrays self)
       = OutOfFuel).
Proof.
  intros A B self fuel Hs. split; [by apply iter_next_empty|].
  intros Hb. unfold XYAdapter.batch_next, range.
  destruct (Z.to_nat (XYAdapter.batch_size self)) as [|b] eqn:Hn; [lia|].
  cbn. by rewrite iter_next_empty.
Qed.

Lemma empty_adapter_stalls_witness :
  XYAdapter.iter_next 1000
    (XYAdapter.__init__ ([] : list nat) S 4%Z) XYAdapter.AtWhile
  = OutOfFuel
  ∧ XYAdapter.batch_next 1000
      (XYAdapter.__init__ ([] : list nat) S 4%Z) XYAdapter.BatchNew
    = OutOfFuel.
Proof.
  destruct (empty_adapter_stalls nat nat
              (XYAdapter.__init__ [] S 4%Z) 1000 eq_refl) as [Hi Hb].
  split; [exact Hi | apply Hb; reflexivity].
Defined.

(** C10. With a [batch_size] of zero or below, whatever the samples (none
    at all included), every call of [next] on [batch_arrays()] returns the
    empty batch without raising and without asking the sample iterator for
    anything: any number [k] of calls returns [k] empty batches. *)
Theorem nonpositive_batch_size_yields_empty_batches :
  ∀ (A B : Type) (self : XYAdapter.t A B) (fuel k : nat),
    (XYAdapter.batch_size self ≤ 0)%Z →
    pull (XYAdapter.batch_next fuel self) k (XYAdapter.batch_arrays self)
    = Yield (replicate k [])
        (match k with
         | 0 => XYAdapter.BatchNew
         | S _ => XYAdapter.BatchWhile (XYAdapter.__iter__ self)
         end).
Proof.
  intros A B self fuel k Hb.
  assert (Hrest : ∀ k,
    pull (XYAdapter.batch_next fuel self) k
         (XYAdapter.BatchWhile (XYAdapter.__iter__ self))
    = Yield (replicate k [])
        (XYAdapter.BatchWhile (XYAdapter.__iter__ self))).
  { clear k. intros k. induction k as [|k IH]; [reflexivity|].
    cbn [pull]. rewrite batch_next_nonpositive by done.
    cbn [XYAdapter.sample_iter_of]. by rewrite IH. }
  destruct k as [|k]; [reflexivity|].
  cbn [pull]. rewrite batch_next_nonpositive by done.
  cbn [XYAdapter.sample_iter_of XYAdapter.batch_arrays]. by rewrite Hrest.
Qed.

Lemma nonpositive_batch_size_yields_empty_batches_witness :
  pull (XYAdapter.batch_next 0
          (XYAdapter.__init__ ([] : list nat) S (-3)%Z)) 5
       XYAdapter.BatchNew
  = Yield [[]; []; []; []; []] (XYAdapter.BatchWhile XYAdapter.AtWhile).
Proof.
  apply (nonpositive_batch_size_yields_empty_batches nat nat
           (XYAdapter.__init__ [] S (-3)%Z) 0 5).
  simpl. lia.
Defined.

(** ** Filter, reduce and extend *)

Section Pipeline_stage_facts.
Context {probe : Type} `{Countable probe} {value : Type}.
Context {XY fraction : Type}.
Local Abbreviation Sample := (Sample.t probe value).
Local Abbreviation Pipeline := (Pipeline.t probe value XY fraction).
Implicit Types (self : Pipeline) (sample : Sample).
Import Pipeline.

Lemma any_existsb {X : Type} (fs : list (X → bool)) (x : X) :
  any ((λ f, f x) <$> fs) = existsb (λ f, f x) fs.
Proof.
  induction fs as [|f fs IH]; [done|].
  rewrite fmap_cons. cbn [any existsb]. rewrite IH. by destruct (f x).
Qed.

(** The guard of the [continue] is the negation of the specified
    survival test. *)
Lemma skip_guard_survives self sample :
  (0 <? length (filters self))
    && negb (any ((λ f, f sample) <$> filters self))
  = negb (survives_spec self sample).
Proof.
  unfold survives_spec. rewrite any_existsb.
  by destruct (filters self).
Qed.

Lemma survives_spec_iff self sample :
  survives_spec self sample = true
  ↔ filters self = [] ∨ ∃ f, f ∈ filters self ∧ f sample = true.
Proof.
  unfold survives_spec. destruct (filters self) as [|f0 fs] eqn:Hf.
  - split; [by left | done].
  - rewrite existsb_exists. split.
    + intros (f & Hin & Hf'). right. exists f.
      split; [by apply list_elem_of_In | done].
    + intros [? | (f & Hin & Hf')]; [done|].
      exists f. split; [by apply list_elem_of_In | done].
Qed.

Lemma reduced_samples_filter_reduce self (samples : list Sample) :
  _reduced_samples self samples = filter_then_reduce_spec self samples.
Proof.
  unfold filter_then_reduce_spec.
  induction samples as [|sample samples IH]; [done|].
  cbn [_reduced_samples List.filter]. rewrite skip_guard_survives.
  destruct (survives_spec self sample); simpl; by rewrite IH.
Qed.

Lemma length_chain_extender (extender : Sample → list Sample) (c : nat)
    (xs : list Sample) :
  (∀ x, length (extender x) = c) →
  length (chain_extender extender xs) = c * length xs.
Proof.
  intros Hc. induction xs as [|x xs IH]; simpl; [lia|].
  rewrite length_app, Hc, IH. lia.
Qed.

Lemma extend_loop_snoc (es : list (Sample → list Sample))
    (extender : Sample → list Sample) (xs : list Sample) :
  extend_loop (es ++ [extender]) xs
  = chain_extender extender (extend_loop es xs).
Proof.
  revert xs. induction es as [|e es IH]; intros xs; [done|].
  simpl. apply IH.
Qed.

Lemma extended_samples_app self (l1 l2 : list Sample) :
  _extended_samples self (l1 ++ l2)
  = _extended_samples self l1 ++ _extended_samples self l2.
Proof.
  induction l1 as [|s l1 IH]; [done|].
  simpl. by rewrite IH, app_assoc.
Qed.

Lemma extended_samples_no_extenders self (samples : list Sample) :
  extenders self = [] → _extended_samples self samples = samples.
Proof.
  intros He. induction samples as [|s samples IH]; [done|].
  simpl. by rewrite He, IH.
Qed.
End Pipeline_stage_facts.

Section Pipeline_stage_claims.
Context {probe : Type} `{Countable probe} {value : Type}.
Context {XY fraction : Type}.
Local Abbreviation Sample := (Sample.t probe value).
Local Abbreviation Pipeline := (Pipeline.t probe value XY fraction).
Implicit Types (self : Pipeline) (sample : Sample).
Import Pipeline.

(** C3. The filter stage keeps a sample iff the filter list is empty or at
    least one filter returns true for it; the kept samples come out in
    their original relative order (each one reduced); with no filters
    every sample of the input comes out, in order, and with no reducers
    either the output is the input itself. *)
Theorem filter_stage_is_inclusive_or :
  ∀ self (samples : list Sample),
    (∀ sample, survives_spec self sample = true
               ↔ filters self = [] ∨ ∃ f, f ∈ filters self ∧ f sample = true)
    ∧ _reduced_samples self samples
      = map (_reduce_sample self) (List.filter (survives_spec self) samples)
    ∧ (filters self = [] →
       _reduced_samples self samples = map (_reduce_sample self) samples)
    ∧ (filters self = [] → reducers self = [] →
       _reduced_samples self samples = samples).
Proof.
  intros self samples.
  assert (Hall : filters self = [] →
            List.filter (survives_spec self) samples = samples).
  { intros Hf. unfold survives_spec. rewrite Hf.
    induction samples as [|s samples IH]; [done|].
    simpl. by rewrite IH. }
  split_and!.
  - apply survives_spec_iff.
  - apply reduced_samples_filter_reduce.
  - intros Hf. rewrite reduced_samples_filter_reduce.
    unfold filter_then_reduce_spec. by rewrite Hall.
  - intros Hf Hr. rewrite reduced_samples_filter_reduce.
    unfold filter_then_reduce_spec. rewrite Hall by done.
    unfold _reduce_sample. rewrite Hr. simpl. apply map_id.
Qed.

(** C4. For a delegate [d] and a key collection [R], the sample
    [ReducedSample(d, R)] answers a lookup of a probe in [R] with [d]'s
    answer for it, answers a lookup of a probe outside [R] with [None]
    and no exception, and lists as its keys [R] itself, in [R]'s order;
    the set it tests membership in is the one computed from [R] when the
    object is built. *)
Theorem reduced_sample_restricts_to_reduction :
  ∀ (d : Sample) (R : list probe) (probe_id : probe),
    (probe_id ∈ R →
     ReducedSample.__getitem__ (ReducedSample.__init__ d R) probe_id
     = ReducedSample.__getitem__ d probe_id)
    ∧ (probe_id ∉ R →
       ReducedSample.__getitem__ (ReducedSample.__init__ d R) probe_id
       = Sample.Returns None)
    ∧ ReducedSample.keys (ReducedSample.__init__ d R) = R
    ∧ ∃ reduction_set : gset probe,
        ReducedSample.__init__ d R = Sample.Reduced d R reduction_set
        ∧ ∀ p, p ∈ reduction_set ↔ p ∈ R.
Proof.
  intros d R probe_id. split_and!.
  - intros Hin. cbn [ReducedSample.__init__ ReducedSample.__getitem__].
    rewrite decide_True; [done|]. by apply elem_of_list_to_set.
  - intros Hnin. cbn [ReducedSample.__init__ ReducedSample.__getitem__].
    rewrite decide_False; [done|]. by rewrite elem_of_list_to_set.
  - done.
  - exists (list_to_set R). split; [done|].
    intros p. apply elem_of_list_to_set.
Qed.

(** C5. The extend stage runs the extenders left to right, each on all
    the outputs of the one before it: a sample put through an extender
    with 2 outputs per input and then one with 3 outputs per input comes
    out as exactly 6 samples; without extenders every sample passes
    through unchanged; and the outputs of an earlier sample come before
    those of a later one. *)
Theorem extend_stage_composes_extenders :
  ∀ self,
    (∀ (es : list (Sample → list Sample)) extender (xs : list Sample),
        extend_loop (es ++ [extender]) xs
        = chain_extender extender (extend_loop es xs))
    ∧ (∀ extender1 extender2 sample,
          extenders self = [extender1; extender2] →
          (∀ x, length (extender1 x) = 2) →
          (∀ x, length (extender2 x) = 3) →
          length (_extended_samples self [sample]) = 6)
    ∧ (extenders self = [] →
       ∀ samples : list Sample, _extended_samples self samples = samples)
    ∧ (∀ before after : list Sample,
          _extended_samples self (before ++ after)
          = _extended_samples self before ++ _extended_samples self after).
Proof.
  intros self. split_and!.
  - apply extend_loop_snoc.
  - intros e1 e2 sample He H1 H2.
    cbn [_extended_samples]. rewrite He, app_nil_r. cbn [extend_loop].
    rewrite (length_chain_extender e2 3) by done.
    rewrite (length_chain_extender e1 2) by done. done.
  - intros He samples. by apply extended_samples_no_extenders.
  - apply extended_samples_app.
Qed.

(** C8. [append_reduced_samples] performs on the output one [append] per
    sample that survives the filter stage, in input order, each with the
    reduced sample: the outcome is that of appending, one by one, the
    result of a filter-then-reduce written by hand (for a list: the list
    followed by that result).  Nothing but the filters and the reducers
    has a part in it: no extender, no shuffle, no batching. *)
Theorem append_reduced_samples_is_filter_then_reduce :
  ∀ self (samples_input : list Sample),
    (∀ (sink : Type) (append : sink → Sample → sink) (samples_output : sink),
        append_reduced_samples append self samples_input samples_output
        = foldl append samples_output
            (filter_then_reduce_spec self samples_input))
    ∧ (∀ samples_output : list Sample,
          append_reduced_samples list_append self samples_input samples_output
          = samples_output ++ filter_then_reduce_spec self samples_input)
    ∧ (∀ self' (sink : Type) (append : sink → Sample → sink)
         (samples_output : sink),
          filters self' = filters self → reducers self' = reducers self →
          append_reduced_samples append self' samples_input samples_output
          = append_reduced_samples append self samples_input samples_output).
Proof.
  intros self samples_input. split_and!.
  - intros sink append samples_output. unfold append_reduced_samples.
    by rewrite reduced_samples_filter_reduce.
  - intros samples_output. unfold append_reduced_samples.
    rewrite reduced_samples_filter_reduce.
    generalize (filter_then_reduce_spec self samples_input) as l.
    intros l. revert samples_output.
    induction l as [|x l IH]; intros samples_output; simpl.
    + by rewrite app_nil_r.
    + rewrite IH. unfold list_append. by rewrite <- app_assoc.
  - intros self' sink append samples_output Hf Hr.
    unfold append_reduced_samples.
    rewrite !reduced_samples_filter_reduce.
    unfold filter_then_reduce_spec, survives_spec, _reduce_sample.
    by rewrite Hf, Hr.
Qed.
End Pipeline_stage_claims.

Lemma filter_stage_is_inclusive_or_witness :
  Pipeline._reduced_samples Fixture.plain [Fixture.low; Fixture.high]
  = map (Pipeline._reduce_sample Fixture.plain) [Fixture.low; Fixture.high]
  ∧ Pipeline._reduced_samples Fixture.plain [Fixture.low; Fixture.high]
    = [Fixture.low; Fixture.high].
Proof.
  destruct (filter_stage_is_inclusive_or Fixture.plain
              [Fixture.low; Fixture.high]) as (_ & _ & Hnofilter & Hplain).
  split; [apply Hnofilter | apply Hplain]; reflexivity.
Defined.

Lemma reduced_sample_restricts_to_reduction_witness :
  ReducedSample.__getitem__
    (ReducedSample.__init__ Fixture.abc ["a"; "c"]) "c"
  = ReducedSample.__getitem__ Fixture.abc "c"
  ∧ ReducedSample.__getitem__
      (ReducedSample.__init__ Fixture.abc ["a"; "c"]) "b"
    = Sample.Returns None.
Proof.
  split.
  - apply (proj1 (reduced_sample_restricts_to_reduction
                    Fixture.abc ["a"; "c"] "c")).
    by apply (bool_decide_unpack _).
  - apply (proj1 (proj2 (reduced_sample_restricts_to_reduction
                           Fixture.abc ["a"; "c"] "b"))).
    by apply (bool_decide_unpack _).
Defined.

Lemma extend_stage_composes_extenders_witness :
  length (Pipeline._extended_samples Fixture.busy [Fixture.high]) = 6
  ∧ Pipeline._extended_samples Fixture.plain [Fixture.low; Fixture.high]
    = [Fixture.low; Fixture.high].
Proof.
  split.
  - apply (proj1 (proj2 (extend_stage_composes_extenders Fixture.busy))
             Fixture.twice Fixture.thrice Fixture.high);
      [reflexivity | intros x; reflexivity | intros x; reflexivity].
  - apply (proj1 (proj2 (proj2
             (extend_stage_composes_extenders Fixture.plain)))).
    reflexivity.
Defined.

Lemma append_reduced_samples_is_filter_then_reduce_witness :
  Pipeline.append_reduced_samples Pipeline.list_append Fixture.busy
    [Fixture.low; Fixture.high] [Fixture.abc]
  = Pipeline.append_reduced_samples Pipeline.list_append Fixture.busy_quiet
      [Fixture.low; Fixture.high] [Fixture.abc].
Proof.
  apply (proj2 (proj2 (append_reduced_samples_is_filter_then_reduce
                         Fixture.busy_quiet [Fixture.low; Fixture.high])));
    reflexivity.
Defined.

(** ** Shuffling *)

Section shuffle_facts.
Context {rng A : Type}.
Variable randbelow : rng → nat → nat * rng.
Hypothesis randbelow_lt : ∀ g n, 0 < n → (randbelow g n).1 < n.
Implicit Types (x : list A) (g : rng).

Lemma cons_insert_perm (h b : A) (t : list A) (j : nat) :
  t !! j = Some b → b :: <[j := h]> t ≡ₚ h :: t.
Proof.
  revert j. induction t as [|c t IH]; intros [|j] Hj; simplify_eq/=.
  - apply perm_swap.
  - rewrite perm_swap. rewrite (IH j Hj). apply perm_swap.
Qed.

Lemma swap_perm x (i j : nat) x' :
  random.swap x i j = inr x' → x' ≡ₚ x.
Proof.
  unfold random.swap.
  destruct (x !! j) as [xj|] eqn:Hj; [|done].
  destruct (x !! i) as [xi|] eqn:Hi; [|done].
  intros [= <-]. revert i j Hi Hj.
  induction x as [|h t IH]; intros [|i] [|j] Hi Hj; simplify_eq/=.
  - done.
  - by apply cons_insert_perm.
  - by apply cons_insert_perm.
  - by rewrite (IH i j).
Qed.

Lemma swap_in_range x (i j : nat) :
  i < length x → j < length x → ∃ x', random.swap x i j = inr x'.
Proof.
  intros Hi Hj. unfold random.swap.
  destruct (lookup_lt_is_Some_2 x j Hj) as [xj ->].
  destruct (lookup_lt_is_Some_2 x i Hi) as [xi ->].
  by eexists.
Qed.

Lemma shuffle_loop_perm (i : nat) g x :
  i < length x ∨ i = 0 →
  ∃ x' g', random.shuffle_loop randbelow i g x = inr (x', g') ∧ x' ≡ₚ x.
Proof.
  revert g x. induction i as [|i IH]; intros g x Hi.
  - by exists x, g.
  - destruct Hi as [Hi|]; [|done].
    cbn [random.shuffle_loop].
    pose proof (randbelow_lt g (S i + 1) ltac:(lia)) as Hj.
    destruct (randbelow g (S i + 1)) as [j g1]. simpl in Hj.
    destruct (swap_in_range x (S i) j) as [x1 Hswap]; [lia..|].
    rewrite Hswap. apply swap_perm in Hswap as Hperm.
    destruct (IH g1 x1) as (x' & g' & Hloop & Hperm').
    { left. rewrite (Permutation_length Hperm). lia. }
    exists x', g'. split; [done|]. by rewrite Hperm'.
Qed.

Lemma shuffle_perm g x :
  ∃ x' g', random.shuffle randbelow g x = inr (x', g') ∧ x' ≡ₚ x.
Proof.
  unfold random.shuffle. apply shuffle_loop_perm.
  destruct x; simpl; [by right | left; lia].
Qed.
End shuffle_facts.

(** ** [get] and [split] *)

Section Pipeline_get_split_claims.
Context {probe : Type} `{Countable probe} {value : Type}.
Context {XY fraction rng : Type}.
Local Abbreviation Sample := (Sample.t probe value).
Local Abbreviation Pipeline := (Pipeline.t probe value XY fraction).
Variable randbelow : rng → nat → nat * rng.
Hypothesis randbelow_lt : ∀ g n, 0 < n → (randbelow g n).1 < n.
Variable common_split :
  list Sample → gmap string fraction → gmap string (list Sample).
Implicit Types (self : Pipeline) (g : rng).
Import Pipeline.

(** C6. [get] returns an adapter whose stored collection is a permutation
    of the filtered, reduced and extended sequence, with the pipeline's
    mapper and batch size; when [shuffle] is false the collection is that
    sequence itself, in its order, and the random source is left as it
    was. *)
Theorem get_materializes_a_permutation :
  ∀ self g (samples : list Sample),
    ∃ adapter g',
      get randbelow self g samples = inr (adapter, g')
      ∧ XYAdapter.samples adapter
        ≡ₚ _extended_samples self (_reduced_samples self samples)
      ∧ XYAdapter.mapper adapter = mapper self
      ∧ XYAdapter.batch_size adapter = batch_size self
      ∧ (shuffle self = false →
         XYAdapter.samples adapter
         = _extended_samples self (_reduced_samples self samples)
         ∧ g' = g).
Proof.
  intros self g samples. unfold get.
  destruct (shuffle self) eqn:Hsh.
  - destruct (shuffle_perm randbelow randbelow_lt g
                (_extended_samples self (_reduced_samples self samples)))
      as (x' & g' & -> & Hperm).
    eexists _, g'. split; [done|]. by split_and!.
  - eexists _, g. split; [done|]. by split_and!.
Qed.

(** C7. [split] hands the reduced samples, not yet extended, to the
    category split.  Of the groups that come back only ["train"], when
    there is one, is extended and (when [shuffle] is set) shuffled: its
    adapter holds a permutation of the extended group, the extended group
    itself when [shuffle] is false.  Every other group is stored in its
    adapter as the split returned it, and every group, and nothing else,
    gets an adapter with the pipeline's mapper and batch size. *)
Theorem split_extends_and_shuffles_train_only :
  ∀ self g (samples : list Sample),
    ∃ adapters g',
      split randbelow common_split self g samples = inr (adapters, g')
      ∧ (∀ c, c ≠ "train" →
           adapters !! c
           = (λ s, XYAdapter.__init__ s (mapper self) (batch_size self))
               <$> common_split (_reduced_samples self samples)
                     (categories self) !! c)
      ∧ match common_split (_reduced_samples self samples)
                (categories self) !! "train" with
        | Some train =>
            ∃ train',
              adapters !! "train"
              = Some (XYAdapter.__init__ train' (mapper self)
                        (batch_size self))
              ∧ train' ≡ₚ _extended_samples self train
              ∧ (shuffle self = false →
                 train' = _extended_samples self train)
        | None => adapters !! "train" = None
        end
      ∧ dom adapters
        = dom (common_split (_reduced_samples self samples)
                 (categories self)).
Proof.
  intros self g samples. unfold split.
  set (groups := common_split (_reduced_samples self samples)
                   (categories self)).
  destruct (groups !! "train") as [train|] eqn:Htrain.
  - assert (Hdom : ∀ train' : list Sample,
              dom ((λ s, XYAdapter.__init__ s (mapper self) (batch_size self))
                     <$> <["train" := train']> groups) = dom groups).
    { intros train'. rewrite dom_fmap_L, dom_insert_L.
      apply subseteq_union_1_L, singleton_subseteq_l.
      by apply (elem_of_dom_2 groups "train" train). }
    assert (Hother : ∀ (train' : list Sample) c, c ≠ "train" →
              ((λ s, XYAdapter.__init__ s (mapper self) (batch_size self))
                 <$> <["train" := train']> groups) !! c
              = (λ s, XYAdapter.__init__ s (mapper self) (batch_size self))
                  <$> groups !! c).
    { intros train' c Hc. by rewrite lookup_fmap, lookup_insert_ne. }
    assert (Htr : ∀ train' : list Sample,
              ((λ s, XYAdapter.__init__ s (mapper self) (batch_size self))
                 <$> <["train" := train']> groups) !! "train"
              = Some (XYAdapter.__init__ train' (mapper self)
                        (batch_size self))).
    { intros train'. by rewrite lookup_fmap, lookup_insert_eq. }
    destruct (shuffle self) eqn:Hsh.
    + destruct (shuffle_perm randbelow randbelow_lt g
                  (_extended_samples self train))
        as (train' & g' & -> & Hperm).
      eexists _, g'. split; [done|]. split_and!; [by apply Hother| |by apply Hdom].
      exists train'. by split_and!.
    + eexists _, g. split; [done|]. split_and!; [by apply Hother| |by apply Hdom].
      exists (_extended_samples self train). by split_and!.
  - eexists _, g. split; [done|]. split_and!.
    + intros c _. by rewrite lookup_fmap.
    + by rewrite lookup_fmap, Htrain.
    + by rewrite dom_fmap_L.
Qed.
End Pipeline_get_split_claims.

Lemma get_materializes_a_permutation_witness :
  (∃ adapter g',
      Pipeline.get Fixture.randbelow Fixture.busy 0
        [Fixture.low; Fixture.high; Fixture.high]
      = inr (adapter, g')
      ∧ XYAdapter.samples adapter
        ≡ₚ Pipeline._extended_samples Fixture.busy
             (Pipeline._reduced_samples Fixture.busy
                [Fixture.low; Fixture.high; Fixture.high]))
  ∧ (∃ adapter,
      Pipeline.get Fixture.randbelow Fixture.busy_quiet 0
        [Fixture.low; Fixture.high; Fixture.high]
      = inr (adapter, 0)
      ∧ XYAdapter.samples adapter
        = Pipeline._extended_samples Fixture.busy_quiet
            (Pipeline._reduced_samples Fixture.busy_quiet
               [Fixture.low; Fixture.high; Fixture.high])).
Proof.
  assert (Hlt : ∀ g n, 0 < n → (Fixture.randbelow g n).1 < n).
  { intros g n Hn. simpl. apply Nat.mod_upper_bound. lia. }
  split.
  - destruct (get_materializes_a_permutation Fixture.randbelow Hlt
                Fixture.busy 0 [Fixture.low; Fixture.high; Fixture.high])
      as (adapter & g' & Hget & Hperm & _).
    exists adapter, g'. split; [exact Hget | exact Hperm].
  - destruct (get_materializes_a_permutation Fixture.randbelow Hlt
                Fixture.busy_quiet 0
                [Fixture.low; Fixture.high; Fixture.high])
      as (adapter & g' & Hget & _ & _ & _ & Hsame).
    destruct (Hsame eq_refl) as [Hsamples ->].
    exists adapter. split; [exact Hget | exact Hsamples].
Defined.

Lemma split_extends_and_shuffles_train_only_witness :
  ∃ adapters g',
    Pipeline.split Fixture.randbelow Fixture.first_to_test Fixture.busy 0
      [Fixture.high; Fixture.low; Fixture.high]
    = inr (adapters, g')
    ∧ adapters !! "test"
      = Some (XYAdapter.__init__
                [Pipeline._reduce_sample Fixture.busy Fixture.high]
                identity 2%Z)
    ∧ (∃ train',
        adapters !! "train" = Some (XYAdapter.__init__ train' identity 2%Z)
        ∧ train'
          ≡ₚ Pipeline._extended_samples Fixture.busy
               [Pipeline._reduce_sample Fixture.busy Fixture.high])
    ∧ dom adapters = {["test"; "train"]}.
Proof.
  assert (Hlt : ∀ g n, 0 < n → (Fixture.randbelow g n).1 < n).
  { intros g n Hn. simpl. apply Nat.mod_upper_bound. lia. }
  destruct (split_extends_and_shuffles_train_only
              Fixture.randbelow Hlt Fixture.first_to_test Fixture.busy 0
              [Fixture.high; Fixture.low; Fixture.high])
    as (adapters & g' & Hsplit & Hother & Htrain & Hdom).
  exists adapters, g'. split; [exact Hsplit|]. split_and!.
  - rewrite (Hother "test") by done. reflexivity.
  - destruct Htrain as (train' & Hlookup & Hperm & _).
    exists train'. split; [exact Hlookup | exact Hperm].
  - rewrite Hdom. reflexivity.
Defined.

(** * Further properties *)

(** ** Epochs and batches of the adapter *)

Section XYAdapter_epoch_facts.
Context {A B : Type}.
Implicit Types (self : XYAdapter.t A B) (pc : XYAdapter.iter_pc).
Import XYAdapter.

Lemma pull_add {S V : Type} (next : S → resumed S V) (a b : nat) (s : S) :
  pull next (a + b) s
  = match pull next a s with
    | Yield vs s' =>
        match pull next b s' with
        | Yield ws s'' => Yield (vs ++ ws) s''
        | Raise e => Raise e
        | OutOfFuel => OutOfFuel
        end
    | Raise e => Raise e
    | OutOfFuel => OutOfFuel
    end.
Proof.
  revert s. induction a as [|a IH]; intros s.
  - cbn [Nat.add pull]. by destruct (pull next b s).
  - cbn [Nat.add pull]. destruct (next s) as [v s'| |]; [|done..].
    rewrite IH. destruct (pull next a s') as [vs s''| |]; [|done..].
    by destruct (pull next b s'').
Qed.

(** The sample generator has no exit and no failing step. *)
Lemma iter_next_never_raises self fuel pc e :
  iter_next fuel self pc ≠ Raise e.
Proof.
  revert pc. induction fuel as [|fuel IH]; intros pc; [done|].
  cbn [iter_next]. destruct (iter_step self pc) as [pc' [v|]]; [done|].
  apply IH.
Qed.

(** Filling a batch is pulling as many values as the [range] counts. *)
Lemma batch_fill_pull self fuel (idxs : list Z) batch_array pc :
  batch_fill fuel self idxs batch_array pc
  = match pull (iter_next fuel self) (length idxs) pc with
    | Yield vs pc' => Yield (batch_array ++ vs) pc'
    | Raise e => Raise e
    | OutOfFuel => OutOfFuel
    end.
Proof.
  revert batch_array pc.
  induction idxs as [|i idxs IH]; intros batch_array pc.
  - cbn [batch_fill length pull]. by rewrite app_nil_r.
  - cbn [batch_fill length pull].
    pose proof (iter_next_never_raises self fuel pc) as Hnr.
    destruct (iter_next fuel self pc) as [v pc'|e|]; [|by destruct (Hnr e)|done].
    rewrite IH.
    destruct (pull (iter_next fuel self) (length idxs) pc') as [vs pc''| |];
      [|done..].
    by rewrite <- app_assoc.
Qed.

(** Inside a pass: from index [length l1] on, the rest of the list comes
    out in order. *)
Lemma pull_rest_of_pass self fuel (l1 l2 : list A) :
  samples self = l1 ++ l2 → 1 ≤ fuel →
  pull (iter_next fuel self) (length l2) (AtFor (length l1))
  = Yield (mapper self <$> l2) (AtFor (length (samples self))).
Proof.
  intros Hs Hfuel. revert l1 Hs.
  induction l2 as [|s l2 IH]; intros l1 Hs.
  - cbn [length pull fmap list_fmap]. by rewrite Hs, app_nil_r.
  - cbn [length pull]. destruct fuel as [|fuel]; [lia|].
    cbn [iter_next iter_step].
    rewrite Hs, list_lookup_middle by done. rewrite <- Hs.
    replace (S (length l1)) with (length (l1 ++ [s]))
      by (rewrite length_app; simpl; lia).
    rewrite IH by (by rewrite <- app_assoc). done.
Qed.

Lemma iter_next_pass_start self fuel pc :
  samples self ≠ [] → 3 ≤ fuel → at_pass_start self pc →
  iter_next fuel self pc = iter_next fuel self (AtFor 0).
Proof.
  intros Hne Hfuel Hpc.
  assert (∃ s0, samples self !! 0 = Some s0) as [s0 Hs0].
  { apply lookup_lt_is_Some. destruct (samples self); [done | simpl; lia]. }
  destruct fuel as [|[|[|fuel]]]; try lia.
  destruct Hpc as [->|[->| ->]]; [|done|].
  - cbn [iter_next iter_step]. by rewrite Hs0.
  - cbn [iter_next iter_step].
    rewrite (lookup_ge_None_2 (samples self) (length (samples self))) by done.
    cbn [iter_next iter_step]. by rewrite Hs0.
Qed.

(** One pass from a pass start: the mapped samples in stored order. *)
Lemma pull_one_pass self fuel pc :
  samples self ≠ [] → 3 ≤ fuel → at_pass_start self pc →
  pull (iter_next fuel self) (length (samples self)) pc
  = Yield (mapper self <$> samples self) (AtFor (length (samples self))).
Proof.
  intros Hne Hfuel Hpc.
  pose proof (pull_rest_of_pass self fuel [] (samples self) eq_refl
                ltac:(lia)) as Hpass.
  cbn [length] in Hpass.
  destruct (samples self) as [|s0 rest] eqn:Hs; [done|].
  cbn [length pull] in *.
  rewrite <- Hs in *.
  by rewrite (iter_next_pass_start self fuel pc).
Qed.

Lemma pull_epochs self fuel pc (c : nat) :
  samples self ≠ [] → 3 ≤ fuel → at_pass_start self pc →
  ∃ pc',
    pull (iter_next fuel self) (c * length (samples self)) pc
    = Yield (concat (replicate c (mapper self <$> samples self))) pc'
    ∧ at_pass_start self pc'.
Proof.
  intros Hne Hfuel. revert pc. induction c as [|c IH]; intros pc Hpc.
  - by exists pc.
  - cbn [Nat.mul replicate concat]. rewrite pull_add.
    rewrite pull_one_pass by done.
    destruct (IH (AtFor (length (samples self)))) as (pc' & -> & Hpc').
    { right. by right. }
    by exists pc'.
Qed.
End XYAdapter_epoch_facts.

Section XYAdapter_batch_facts.
Context {A B : Type}.
Implicit Types (self : XYAdapter.t A B) (pc : XYAdapter.iter_pc).
Import XYAdapter.

Lemma pull_iter_never_raises self fuel (k : nat) pc e :
  pull (iter_next fuel self) k pc ≠ Raise e.
Proof.
  revert pc. induction k as [|k IH]; intros pc; [done|].
  cbn [pull]. pose proof (iter_next_never_raises self fuel pc) as Hnr.
  destruct (iter_next fuel self pc) as [v pc'|e'|]; [|by destruct (Hnr e')|done].
  specialize (IH pc').
  by destruct (pull (iter_next fuel self) k pc').
Qed.

Lemma pull_length {S V : Type} (next : S → resumed S V) (k : nat) (s s' : S)
    (vs : list V) :
  pull next k s = Yield vs s' → length vs = k.
Proof.
  revert s s' vs. induction k as [|k IH]; intros s s' vs; cbn [pull].
  - by intros [= <- _].
  - destruct (next s) as [v s1| |]; [|done..].
    destruct (pull next k s1) as [ws s2| |] eqn:Hp; [|done..].
    intros [= <- _]. simpl. f_equal. by eapply IH.
Qed.

Lemma batch_next_pull self fuel (bpc : batch_pc) :
  batch_next fuel self bpc
  = match pull (iter_next fuel self) (Z.to_nat (batch_size self))
            (sample_iter_of self bpc) with
    | Yield vs pc' => Yield vs (BatchWhile pc')
    | Raise e => Raise e
    | OutOfFuel => OutOfFuel
    end.
Proof.
  unfold batch_next. rewrite batch_fill_pull, length_range.
  by destruct (pull _ _ _).
Qed.

Lemma pull_batches_pull_values self fuel (k : nat) (bpc : batch_pc) :
  match pull (iter_next fuel self) (k * Z.to_nat (batch_size self))
          (sample_iter_of self bpc) with
  | Yield vs pc' =>
      ∃ batches bpc',
        pull (batch_next fuel self) k bpc = Yield batches bpc'
        ∧ concat batches = vs
        ∧ Forall (λ batch, length batch = Z.to_nat (batch_size self)) batches
        ∧ sample_iter_of self bpc' = pc'
  | Raise _ => False
  | OutOfFuel => pull (batch_next fuel self) k bpc = OutOfFuel
  end.
Proof.
  revert bpc. induction k as [|k IH]; intros bpc.
  - cbn [Nat.mul pull]. by exists [], bpc.
  - cbn [Nat.mul]. rewrite pull_add. cbn [pull]. rewrite batch_next_pull.
    pose proof (pull_iter_never_raises self fuel
                  (Z.to_nat (batch_size self)) (sample_iter_of self bpc))
      as Hnr.
    destruct (pull (iter_next fuel self) (Z.to_nat (batch_size self))
                (sample_iter_of self bpc)) as [vs pc1|e|] eqn:Hfirst;
      [|by destruct (Hnr e)|done].
    specialize (IH (BatchWhile pc1)). cbn [sample_iter_of] in IH.
    destruct (pull (iter_next fuel self) (k * Z.to_nat (batch_size self)) pc1)
      as [ws pc2|e|]; [|done|by rewrite IH].
    destruct IH as (batches & bpc' & -> & <- & Hlen & Hpc).
    exists (vs :: batches), bpc'. split_and!; [done|done| |done].
    constructor; [|done]. by apply pull_length in Hfirst.
Qed.

Lemma batch_next_epochs self fuel (bpc : batch_pc) (c : nat) :
  samples self ≠ [] → 3 ≤ fuel →
  batch_size self = Z.of_nat (c * length (samples self)) →
  at_pass_start self (sample_iter_of self bpc) →
  ∃ pc',
    batch_next fuel self bpc
    = Yield (concat (replicate c (mapper self <$> samples self)))
        (BatchWhile pc')
    ∧ at_pass_start self pc'.
Proof.
  intros Hne Hfuel Hb Hpc. rewrite batch_next_pull, Hb, Nat2Z.id.
  destruct (pull_epochs self fuel (sample_iter_of self bpc) c)
    as (pc' & -> & Hpc'); [done..|].
  by exists pc'.
Qed.
End XYAdapter_batch_facts.

(** X1. On an adapter over a non-empty collection, the first
    [c * len(samples)] values of an iterator are [c] copies, one after the
    other, of the mapped samples in their stored order. *)
Theorem iter_yields_whole_epochs :
  ∀ (A B : Type) (self : XYAdapter.t A B) (fuel c : nat),
    XYAdapter.samples self ≠ [] → 3 ≤ fuel →
    ∃ pc',
      pull (XYAdapter.iter_next fuel self)
           (c * XYAdapter.__len__ self) (XYAdapter.__iter__ self)
      = Yield (concat (replicate c
                 (XYAdapter.mapper self <$> XYAdapter.samples self))) pc'.
Proof.
  intros A B self fuel c Hne Hfuel.
  destruct (pull_epochs self fuel (XYAdapter.__iter__ self) c)
    as (pc' & Hpull & _); [done|done|by left|].
  by exists pc'.
Qed.

Lemma iter_yields_whole_epochs_witness :
  ∃ pc',
    pull (XYAdapter.iter_next 3 (XYAdapter.__init__ [1; 2; 3] S 2%Z))
         (2 * 3) XYAdapter.AtWhile
    = Yield [2; 3; 4; 2; 3; 4] pc'.
Proof.
  apply (iter_yields_whole_epochs nat nat
           (XYAdapter.__init__ [1; 2; 3] S 2%Z) 3 2); [done | lia].
Defined.

(** X2. The batches of [batch_arrays()] cut the stream of the iterator
    into consecutive pieces of [batch_size] values: whenever the first
    [k * batch_size] values of an iterator come out, the first [k] batches
    come out too, each of [batch_size] elements, and put end to end they
    are those values; no value is dropped, repeated or moved.  When the
    iterator stalls, so do the batches. *)
Theorem batches_partition_the_iteration :
  ∀ (A B : Type) (self : XYAdapter.t A B) (fuel k : nat),
    match pull (XYAdapter.iter_next fuel self)
            (k * Z.to_nat (XYAdapter.batch_size self))
            (XYAdapter.__iter__ self) with
    | Yield vs pc' =>
        ∃ batches bpc',
          pull (XYAdapter.batch_next fuel self) k
               (XYAdapter.batch_arrays self)
          = Yield batches bpc'
          ∧ concat batches = vs
          ∧ Forall (λ batch, length batch
                             = Z.to_nat (XYAdapter.batch_size self)) batches
    | Raise _ => False
    | OutOfFuel =>
        pull (XYAdapter.batch_next fuel self) k (XYAdapter.batch_arrays self)
        = OutOfFuel
    end.
Proof.
  intros A B self fuel k.
  pose proof (pull_batches_pull_values self fuel k
                (XYAdapter.batch_arrays self)) as Hp.
  cbn [XYAdapter.sample_iter_of XYAdapter.batch_arrays] in Hp.
  destruct (pull (XYAdapter.iter_next fuel self)
              (k * Z.to_nat (XYAdapter.batch_size self))
              (XYAdapter.__iter__ self)) as [vs pc'|e|]; [|done..].
  destruct Hp as (batches & bpc' & Hpull & Hcat & Hlen & _).
  by exists batches, bpc'.
Qed.

(** X3. When [batch_size] is [c] times the number of samples (the number
    itself for [c = 1]), every batch of [batch_arrays()] is the same: [c]
    copies of the mapped samples in stored order. *)
Theorem batch_of_whole_epochs_repeats :
  ∀ (A B : Type) (self : XYAdapter.t A B) (fuel c k : nat),
    XYAdapter.samples self ≠ [] → 3 ≤ fuel →
    XYAdapter.batch_size self = Z.of_nat (c * XYAdapter.__len__ self) →
    ∃ bpc',
      nth_yield (XYAdapter.batch_next fuel self) k
                (XYAdapter.batch_arrays self)
      = Yield (concat (replicate c
                 (XYAdapter.mapper self <$> XYAdapter.samples self))) bpc'.
Proof.
  intros A B self fuel c k Hne Hfuel Hb.
  assert (Hgen : ∀ bpc,
    XYAdapter.at_pass_start self (XYAdapter.sample_iter_of self bpc) →
    ∃ bpc',
      nth_yield (XYAdapter.batch_next fuel self) k bpc
      = Yield (concat (replicate c
                 (XYAdapter.mapper self <$> XYAdapter.samples self))) bpc').
  { induction k as [|k IH]; intros bpc Hpc;
      destruct (batch_next_epochs self fuel bpc c) as (pc' & Hnext & Hpc');
      try done.
    - cbn [nth_yield]. rewrite Hnext. by eexists.
    - cbn [nth_yield]. rewrite Hnext. by apply IH. }
  apply Hgen. by left.
Qed.

Lemma batch_of_whole_epochs_repeats_witness :
  ∃ bpc',
    nth_yield (XYAdapter.batch_next 3 (XYAdapter.__init__ [1; 2; 3] S 3%Z)) 5
              XYAdapter.BatchNew
    = Yield [2; 3; 4] bpc'.
Proof.
  apply (batch_of_whole_epochs_repeats nat nat
           (XYAdapter.__init__ [1; 2; 3] S 3%Z) 3 1 5);
    [done | lia | reflexivity].
Defined.

(** ** More on the filter, reduce and extend stages *)

Section Pipeline_more_stage_facts.
Context {probe : Type} `{Countable probe} {value : Type}.
Context {XY fraction : Type}.
Local Abbreviation Sample := (Sample.t probe value).
Local Abbreviation Pipeline := (Pipeline.t probe value XY fraction).
Implicit Types (self : Pipeline) (sample : Sample).
Import Pipeline.

Lemma reduce_loop_app (rs1 rs2 : list (reducer probe value)) sample :
  reduce_loop (rs1 ++ rs2) sample = reduce_loop rs2 (reduce_loop rs1 sample).
Proof.
  revert sample. induction rs1 as [|[f|R] rs1 IH]; intros sample;
    [done|apply IH..].
Qed.

Lemma reduced_samples_app self (l1 l2 : list Sample) :
  _reduced_samples self (l1 ++ l2)
  = _reduced_samples self l1 ++ _reduced_samples self l2.
Proof.
  induction l1 as [|s l1 IH]; [done|].
  cbn [app _reduced_samples].
  destruct ((0 <? length (filters self))
            && negb (any ((λ f, f s) <$> filters self))); [done|].
  by rewrite IH.
Qed.

Lemma extended_samples_same_extenders (self self' : Pipeline)
    (samples : list Sample) :
  extenders self' = extenders self →
  _extended_samples self' samples = _extended_samples self samples.
Proof.
  intros He. induction samples as [|s samples IH]; [done|].
  cbn [_extended_samples]. by rewrite He, IH.
Qed.

Lemma length_extend_loop (es : list (Sample → list Sample)) (cs : list nat)
    (xs : list Sample) :
  Forall2 (λ extender c, ∀ x, length (extender x) = c) es cs →
  length (extend_loop es xs) = foldr Nat.mul 1 cs * length xs.
Proof.
  intros Hfan. revert xs.
  induction Hfan as [|e c es cs He _ IH]; intros xs.
  - simpl. lia.
  - cbn [extend_loop foldr]. rewrite IH.
    rewrite (length_chain_extender e c) by done. lia.
Qed.

(** X4. With only key collections [R1, ..., Rk] as reducers, the reduced
    sample answers a lookup of a probe that is in every [Ri] with the
    original sample's answer (its exception included) and any other
    lookup with [None]; its keys are the last collection [Rk] as given
    (those of the original sample when there is no reducer), even where
    an earlier collection hides some of them. *)
Theorem key_reducers_intersect :
  ∀ self sample (Rs : list (list probe)),
    reducers self = KeyCollection <$> Rs →
    (∀ probe_id,
        ReducedSample.__getitem__ (_reduce_sample self sample) probe_id
        = if decide (Forall (λ R, probe_id ∈ R) Rs)
          then ReducedSample.__getitem__ sample probe_id
          else Sample.Returns None)
    ∧ ReducedSample.keys (_reduce_sample self sample)
      = default (ReducedSample.keys sample) (last Rs)
    ∧ (∀ probe_id e,
          ReducedSample.__getitem__ (_reduce_sample self sample) probe_id
          = Sample.Raises e
          ↔ Forall (λ R, probe_id ∈ R) Rs
            ∧ ReducedSample.__getitem__ sample probe_id = Sample.Raises e).
Proof.
  intros self sample Rs Hr. unfold _reduce_sample. rewrite Hr. clear Hr.
  assert (Hget : ∀ probe_id,
    ReducedSample.__getitem__ (reduce_loop (KeyCollection <$> Rs) sample)
      probe_id
    = if decide (Forall (λ R, probe_id ∈ R) Rs)
      then ReducedSample.__getitem__ sample probe_id
      else Sample.Returns None).
  { induction Rs as [|R Rs IH] using rev_ind; intros probe_id.
    - by rewrite decide_True by constructor.
    - rewrite fmap_app, reduce_loop_app.
      cbn [fmap list_fmap reduce_loop ReducedSample.__init__
           ReducedSample.__getitem__].
      destruct (decide (probe_id ∈ (list_to_set R : gset probe)))
        as [Hin|Hnin].
      + apply elem_of_list_to_set in Hin.
        rewrite IH. destruct (decide (Forall (λ R, probe_id ∈ R) Rs)).
        * rewrite decide_True; [done|].
          apply Forall_app. split; [done|]. by constructor.
        * rewrite decide_False; [done|]. by intros [? _]%Forall_app.
      + rewrite decide_False; [done|].
        intros [_ HR]%Forall_app. rewrite Forall_singleton in HR.
        apply Hnin. by apply elem_of_list_to_set. }
  split_and!.
  - done.
  - destruct Rs as [|R Rs _] using rev_ind; [done|].
    rewrite fmap_app, reduce_loop_app, last_snoc. done.
  - intros probe_id e. rewrite Hget.
    destruct (decide (Forall (λ R, probe_id ∈ R) Rs)) as [Hall|Hnall].
    + split; [by intros ? | by intros [_ ?]].
    + split; [done | by intros [? _]].
Qed.


(** X6. [append_reduced_samples] can be fed the input in pieces: running
    it on one part and then, into the same output, on the next gives the
    output of one run on both parts together. *)
Theorem append_reduced_samples_in_pieces :
  ∀ self (sink : Type) (append : sink → Sample → sink)
    (part1 part2 : list Sample) (samples_output : sink),
    append_reduced_samples append self (part1 ++ part2) samples_output
    = append_reduced_samples append self part2
        (append_reduced_samples append self part1 samples_output).
Proof.
  intros self sink append part1 part2 samples_output.
  unfold append_reduced_samples.
  by rewrite reduced_samples_app, foldl_app.
Qed.

(** X7. The filters are alternatives.  Appending filters to a non-empty
    filter list never loses a sample: the old output is a subsequence of
    the new one.  Appending filters to an empty list is the opposite
    case: the output, until then the whole reduced input, can only
    shrink. *)
Theorem more_filters_keep_more_unless_first :
  ∀ (self self' : Pipeline) (added : list (Sample → bool))
    (samples : list Sample),
    filters self' = filters self ++ added →
    reducers self' = reducers self →
    (filters self ≠ [] →
     _reduced_samples self samples `sublist_of` _reduced_samples self' samples)
    ∧ (filters self = [] →
       _reduced_samples self' samples
         `sublist_of` _reduced_samples self samples).
Proof.
  intros self self' added samples Hf Hr.
  rewrite !reduced_samples_filter_reduce.
  unfold filter_then_reduce_spec, _reduce_sample. rewrite Hr.
  split; intros Hfs.
  - assert (Himp : ∀ s, survives_spec self s = true →
                        survives_spec self' s = true).
    { intros s. rewrite !survives_spec_iff, Hf.
      intros [?|(f & Hin & Hfs')]; [done|].
      right. exists f. split; [|done]. apply elem_of_app. by left. }
    induction samples as [|s samples IH]; [done|].
    cbn [List.filter].
    destruct (survives_spec self s) eqn:Hs.
    + rewrite (Himp s Hs). cbn [map]. by apply sublist_skip.
    + destruct (survives_spec self' s); [|done].
      cbn [map]. by apply sublist_cons.
  - assert (Hall : ∀ s, survives_spec self s = true).
    { intros s. apply survives_spec_iff. by left. }
    induction samples as [|s samples IH]; [done|].
    cbn [List.filter]. rewrite Hall.
    destruct (survives_spec self' s); cbn [map];
      [by apply sublist_skip | by apply sublist_cons].
Qed.

(** X8. Fan-out multiplies: when extender number [i] returns [c_i]
    samples for every input, the extend stage returns
    [c_1 * ... * c_k] samples for each input sample; an extender that
    returns nothing empties the stage. *)
Theorem extend_stage_fan_out_multiplies :
  ∀ self (cs : list nat) (samples : list Sample),
    Forall2 (λ extender c, ∀ x, length (extender x) = c)
            (extenders self) cs →
    length (_extended_samples self samples)
    = foldr Nat.mul 1 cs * length samples.
Proof.
  intros self cs samples Hfan.
  induction samples as [|s samples IH]; [simpl; lia|].
  cbn [_extended_samples]. rewrite length_app, IH.
  rewrite (length_extend_loop _ cs) by done. simpl. lia.
Qed.
End Pipeline_more_stage_facts.

Lemma key_reducers_intersect_witness :
  ReducedSample.keys
    (Pipeline._reduce_sample Fixture.two_key_reducers Fixture.abc)
  = ["b"; "c"]
  ∧ ReducedSample.__getitem__
      (Pipeline._reduce_sample Fixture.two_key_reducers Fixture.abc) "b"
    = Sample.Returns (Some 2)
  ∧ ReducedSample.__getitem__
      (Pipeline._reduce_sample Fixture.two_key_reducers Fixture.abc) "c"
    = Sample.Returns None.
Proof.
  destruct (key_reducers_intersect Fixture.two_key_reducers Fixture.abc
              [["a"; "b"]; ["b"; "c"]] eq_refl) as (Hget & Hkeys & _).
  split_and!.
  - rewrite Hkeys. reflexivity.
  - rewrite Hget. reflexivity.
  - rewrite Hget. reflexivity.
Defined.


Lemma more_filters_keep_more_unless_first_witness :
  Pipeline._reduced_samples Fixture.busy [Fixture.low; Fixture.high]
    `sublist_of`
    Pipeline._reduced_samples Fixture.busy_two_filters
      [Fixture.low; Fixture.high]
  ∧ Pipeline._reduced_samples Fixture.only_filter [Fixture.low; Fixture.high]
      `sublist_of`
      Pipeline._reduced_samples Fixture.plain [Fixture.low; Fixture.high].
Proof.
  split.
  - apply (proj1 (more_filters_keep_more_unless_first
                    Fixture.busy Fixture.busy_two_filters [λ _, true]
                    [Fixture.low; Fixture.high] eq_refl eq_refl)).
    discriminate.
  - apply (proj2 (more_filters_keep_more_unless_first
                    Fixture.plain Fixture.only_filter [Fixture.value_above_5]
                    [Fixture.low; Fixture.high] eq_refl eq_refl)).
    reflexivity.
Defined.

Lemma extend_stage_fan_out_multiplies_witness :
  length (Pipeline._extended_samples Fixture.busy
            [Fixture.low; Fixture.high; Fixture.abc])
  = foldr Nat.mul 1 [2; 3] * 3.
Proof.
  apply (extend_stage_fan_out_multiplies Fixture.busy [2; 3]
           [Fixture.low; Fixture.high; Fixture.abc]).
  repeat constructor.
Defined.

(** ** More on [get], [split] and [append_reduced_samples] *)

Section Pipeline_more_get_split_facts.
Context {probe : Type} `{Countable probe} {value : Type}.
Context {XY fraction rng : Type}.
Local Abbreviation Sample := (Sample.t probe value).
Local Abbreviation Pipeline := (Pipeline.t probe value XY fraction).
Variable randbelow : rng → nat → nat * rng.
Variable common_split :
  list Sample → gmap string fraction → gmap string (list Sample).
Implicit Types (self : Pipeline) (g : rng).
Import Pipeline.

Lemma foldl_list_append (out l : list Sample) :
  foldl list_append out l = out ++ l.
Proof.
  revert out. induction l as [|x l IH]; intros out; simpl.
  - by rewrite app_nil_r.
  - rewrite IH. unfold list_append. by rewrite <- app_assoc.
Qed.

Lemma length_reduced_samples self (samples : list Sample) :
  length (_reduced_samples self samples) ≤ length samples.
Proof.
  induction samples as [|s samples IH]; [done|].
  cbn [_reduced_samples].
  destruct ((0 <? length (filters self))
            && negb (any ((λ f, f s) <$> filters self))); simpl; lia.
Qed.

Lemma reduced_samples_plain self (samples : list Sample) :
  filters self = [] → reducers self = [] →
  _reduced_samples self samples = samples.
Proof.
  intros Hf Hr. induction samples as [|s samples IH]; [done|].
  cbn [_reduced_samples]. rewrite Hf. cbn.
  unfold _reduce_sample. rewrite Hr. cbn. by rewrite IH.
Qed.

(** X9. The corpus that [append_reduced_samples] wrote into an empty list
    can stand in for the raw input: a pipeline with the same settings but
    no filters and no reducers returns from [get] and from [split], on
    that corpus, what the full pipeline returns on the raw input (with
    the same random draws). *)
Theorem reduced_corpus_can_be_reused :
  ∀ (self self' : Pipeline) g (samples_input : list Sample),
    filters self' = [] → reducers self' = [] →
    extenders self' = extenders self → mapper self' = mapper self →
    batch_size self' = batch_size self → shuffle self' = shuffle self →
    categories self' = categories self →
    get randbelow self' g
      (append_reduced_samples list_append self samples_input [])
    = get randbelow self g samples_input
    ∧ split randbelow common_split self' g
        (append_reduced_samples list_append self samples_input [])
      = split randbelow common_split self g samples_input.
Proof.
  intros self self' g samples_input Hf Hr He Hm Hb Hs Hc.
  unfold append_reduced_samples. rewrite foldl_list_append, app_nil_l.
  unfold get, split.
  rewrite (reduced_samples_plain self') by done.
  rewrite Hm, Hb, Hs, Hc.
  rewrite (extended_samples_same_extenders self self') by done.
  split; [done|].
  destruct (common_split _ _ !! "train") as [train|]; [|done].
  by rewrite (extended_samples_same_extenders self self') by done.
Qed.

(** X10. [split] adds nothing of its own when there is no ["train"]
    group, or when there are no extenders and [shuffle] is off: the
    result is the outcome of the category split on the reduced samples,
    each group wrapped in an adapter, and the random source is not
    drawn from. *)
Theorem split_without_train_work_only_wraps :
  ∀ self g (samples : list Sample),
    common_split (_reduced_samples self samples) (categories self)
      !! "train" = None
    ∨ (extenders self = [] ∧ shuffle self = false) →
    split randbelow common_split self g samples
    = inr ((λ s, XYAdapter.__init__ s (mapper self) (batch_size self))
             <$> common_split (_reduced_samples self samples)
                   (categories self),
           g).
Proof.
  intros self g samples Hcase. unfold split.
  destruct (common_split _ _ !! "train") as [train|] eqn:Htrain; [|done].
  destruct Hcase as [?|[He Hs]]; [done|].
  rewrite Hs, extended_samples_no_extenders by done.
  by rewrite insert_id.
Qed.

Hypothesis randbelow_lt : ∀ g n, 0 < n → (randbelow g n).1 < n.

(** X11. The length of the adapter that [get] returns is the number of
    samples that leave the extend stage, shuffled or not; without
    extenders it is at most the number of input samples, and without
    filters either it is that number. *)
Theorem get_adapter_len_counts_staged_samples :
  ∀ self g (samples : list Sample),
    ∃ adapter g',
      get randbelow self g samples = inr (adapter, g')
      ∧ XYAdapter.__len__ adapter
        = length (_extended_samples self (_reduced_samples self samples))
      ∧ (extenders self = [] →
         XYAdapter.__len__ adapter ≤ length samples)
      ∧ (extenders self = [] → filters self = [] →
         XYAdapter.__len__ adapter = length samples).
Proof.
  intros self g samples.
  assert (Hshape : ∃ adapter g',
    get randbelow self g samples = inr (adapter, g')
    ∧ XYAdapter.__len__ adapter
      = length (_extended_samples self (_reduced_samples self samples))).
  { unfold get. destruct (shuffle self).
    - destruct (shuffle_perm randbelow randbelow_lt g
                  (_extended_samples self (_reduced_samples self samples)))
        as (x' & g' & -> & Hperm).
      eexists _, g'. split; [done|].
      unfold XYAdapter.__len__. cbn. by rewrite Hperm.
    - by eexists _, g. }
  destruct Hshape as (adapter & g' & Hget & Hlen).
  exists adapter, g'. split_and!; [done|done|..].
  - intros He. rewrite Hlen, extended_samples_no_extenders by done.
    apply length_reduced_samples.
  - intros He Hf. rewrite Hlen, extended_samples_no_extenders by done.
    rewrite reduced_samples_filter_reduce. unfold filter_then_reduce_spec.
    rewrite length_map. unfold survives_spec. rewrite Hf.
    clear. induction samples as [|s samples IH]; [done|].
    simpl. by rewrite IH.
Qed.
End Pipeline_more_get_split_facts.

(** X12. A pipeline left as [Pipeline()] builds it passes every sample
    through untouched: [append_reduced_samples] appends the input as it
    is, and [get] returns an adapter of batch size 128 whose collection is
    a permutation of the input and whose mapper returns each sample
    itself. *)
Theorem default_pipeline_passes_samples_through :
  ∀ (probe : Type) `{Countable probe} (value fraction rng : Type)
    (randbelow : rng → nat → nat * rng) (f_0_8 f_0_1 : fraction) (g : rng)
    (samples samples_output : list (Sample.t probe value)),
    (∀ g n, 0 < n → (randbelow g n).1 < n) →
    Pipeline.append_reduced_samples Pipeline.list_append
      (Pipeline.__init__ f_0_8 f_0_1) samples samples_output
    = samples_output ++ samples
    ∧ ∃ adapter g',
        Pipeline.get randbelow (Pipeline.__init__ f_0_8 f_0_1) g samples
        = inr (adapter, g')
        ∧ XYAdapter.samples adapter ≡ₚ samples
        ∧ XYAdapter.batch_size adapter = 128%Z
        ∧ ∀ sample, XYAdapter.mapper adapter sample = sample.
Proof.
  intros probe ? ? value fraction rng randbelow f_0_8 f_0_1 g samples
    samples_output Hlt.
  assert (Hred : Pipeline._reduced_samples
                   (Pipeline.__init__ f_0_8 f_0_1) samples = samples)
    by (by apply reduced_samples_plain).
  split.
  - unfold Pipeline.append_reduced_samples.
    by rewrite foldl_list_append, Hred.
  - unfold Pipeline.get. rewrite Hred.
    rewrite extended_samples_no_extenders by done.
    cbn [Pipeline.shuffle Pipeline.__init__].
    destruct (shuffle_perm randbelow Hlt g samples)
      as (x' & g' & -> & Hperm).
    eexists _, g'. by split_and!.
Qed.

Lemma reduced_corpus_can_be_reused_witness :
  Pipeline.get Fixture.randbelow Fixture.busy_on_corpus 0
    (Pipeline.append_reduced_samples Pipeline.list_append Fixture.busy
       [Fixture.low; Fixture.high; Fixture.high] [])
  = Pipeline.get Fixture.randbelow Fixture.busy 0
      [Fixture.low; Fixture.high; Fixture.high]
  ∧ Pipeline.split Fixture.randbelow Fixture.first_to_test
      Fixture.busy_on_corpus 0
      (Pipeline.append_reduced_samples Pipeline.list_append Fixture.busy
         [Fixture.low; Fixture.high; Fixture.high] [])
    = Pipeline.split Fixture.randbelow Fixture.first_to_test Fixture.busy 0
        [Fixture.low; Fixture.high; Fixture.high].
Proof.
  apply (reduced_corpus_can_be_reused Fixture.randbelow Fixture.first_to_test
           Fixture.busy Fixture.busy_on_corpus 0
           [Fixture.low; Fixture.high; Fixture.high]); reflexivity.
Defined.

Lemma split_without_train_work_only_wraps_witness :
  Pipeline.split Fixture.randbelow Fixture.all_to_test Fixture.busy 0
    [Fixture.low; Fixture.high]
  = inr ((λ s, XYAdapter.__init__ s identity 2%Z)
           <$> Fixture.all_to_test
                 (Pipeline._reduced_samples Fixture.busy
                    [Fixture.low; Fixture.high])
                 (Pipeline.categories Fixture.busy),
         0)
  ∧ Pipeline.split Fixture.randbelow Fixture.first_to_test
      Fixture.busy_quiet 0 [Fixture.high; Fixture.high]
    = inr ((λ s, XYAdapter.__init__ s identity 128%Z)
             <$> Fixture.first_to_test
                   (Pipeline._reduced_samples Fixture.busy_quiet
                      [Fixture.high; Fixture.high])
                   (Pipeline.categories Fixture.busy_quiet),
           0).
Proof.
  split.
  - apply (split_without_train_work_only_wraps Fixture.randbelow
             Fixture.all_to_test Fixture.busy 0 [Fixture.low; Fixture.high]).
    left. reflexivity.
  - apply (split_without_train_work_only_wraps Fixture.randbelow
             Fixture.first_to_test Fixture.busy_quiet 0
             [Fixture.high; Fixture.high]).
    right. split; reflexivity.
Defined.

Lemma get_adapter_len_counts_staged_samples_witness :
  (∃ adapter g',
      Pipeline.get Fixture.randbelow Fixture.busy_quiet 0
        [Fixture.low; Fixture.high; Fixture.high]
      = inr (adapter, g')
      ∧ XYAdapter.__len__ adapter ≤ 3)
  ∧ (∃ adapter g',
      Pipeline.get Fixture.randbelow Fixture.plain 0
        [Fixture.low; Fixture.high; Fixture.high]
      = inr (adapter, g')
      ∧ XYAdapter.__len__ adapter = 3).
Proof.
  assert (Hlt : ∀ g n, 0 < n → (Fixture.randbelow g n).1 < n).
  { intros g n Hn. simpl. apply Nat.mod_upper_bound. lia. }
  split.
  - destruct (get_adapter_len_counts_staged_samples Fixture.randbelow Hlt
                Fixture.busy_quiet 0
                [Fixture.low; Fixture.high; Fixture.high])
      as (adapter & g' & Hget & _ & Hle & _).
    exists adapter, g'. split; [exact Hget | exact (Hle eq_refl)].
  - destruct (get_adapter_len_counts_staged_samples Fixture.randbelow Hlt
                Fixture.plain 0 [Fixture.low; Fixture.high; Fixture.high])
      as (adapter & g' & Hget & _ & _ & Heq).
    exists adapter, g'. split; [exact Hget | exact (Heq eq_refl eq_refl)].
Defined.

Lemma default_pipeline_passes_samples_through_witness :
  Pipeline.append_reduced_samples Pipeline.list_append
    (Pipeline.__init__ 8 1) [Fixture.low; Fixture.high] [Fixture.abc]
  = [Fixture.abc] ++ [Fixture.low; Fixture.high]
  ∧ ∃ adapter g',
      Pipeline.get Fixture.randbelow (Pipeline.__init__ 8 1) 0
        [Fixture.low; Fixture.high]
      = inr (adapter, g')
      ∧ XYAdapter.samples adapter ≡ₚ [Fixture.low; Fixture.high]
      ∧ XYAdapter.batch_size adapter = 128%Z
      ∧ ∀ sample, XYAdapter.mapper adapter sample = sample.
Proof.
  apply default_pipeline_passes_samples_through.
  intros g n Hn. simpl. apply Nat.mod_upper_bound. lia.
Defined.

(** ** The extend stage on whole lists, and the pipeline end to end *)

Section Pipeline_end_to_end_facts.
Context {probe : Type} `{Countable probe} {value : Type}.
Context {XY fraction rng : Type}.
Local Abbreviation Sample := (Sample.t probe value).
Local Abbreviation Pipeline := (Pipeline.t probe value XY fraction).
Variable randbelow : rng → nat → nat * rng.
Implicit Types (self : Pipeline) (g : rng).
Import Pipeline.







(** X14. End to end without shuffling: when [shuffle] is off and at
    least one sample leaves the extend stage, the first [len(adapter)]
    values of iterating the adapter that [get] returns are the mapper
    applied to the filtered, reduced and extended samples, in their
    order. *)
Theorem get_unshuffled_iterates_staged_samples :
  ∀ self g (samples : list Sample) (fuel : nat),
    shuffle self = false →
    _extended_samples self (_reduced_samples self samples) ≠ [] →
    3 ≤ fuel →
    ∃ adapter pc',
      get randbelow self g samples = inr (adapter, g)
      ∧ pull (XYAdapter.iter_next fuel adapter)
             (XYAdapter.__len__ adapter) (XYAdapter.__iter__ adapter)
        = Yield (mapper self
                   <$> _extended_samples self (_reduced_samples self samples))
            pc'.
Proof.
  intros self g samples fuel Hs Hne Hfuel. unfold get. rewrite Hs.
  eexists _, _. split; [done|].
  apply pull_one_pass; [done|done|by left].
Qed.
End Pipeline_end_to_end_facts.


Lemma get_unshuffled_iterates_staged_samples_witness :
  ∃ adapter pc',
    Pipeline.get Fixture.randbelow Fixture.busy_quiet 0
      [Fixture.low; Fixture.high; Fixture.high]
    = inr (adapter, 0)
    ∧ pull (XYAdapter.iter_next 3 adapter)
           (XYAdapter.__len__ adapter) (XYAdapter.__iter__ adapter)
      = Yield (Pipeline.mapper Fixture.busy_quiet
                 <$> Pipeline._extended_samples Fixture.busy_quiet
                       (Pipeline._reduced_samples Fixture.busy_quiet
                          [Fixture.low; Fixture.high; Fixture.high]))
          pc'.
Proof.
  apply (get_unshuffled_iterates_staged_samples Fixture.randbelow
           Fixture.busy_quiet 0 [Fixture.low; Fixture.high; Fixture.high] 3);
    [reflexivity | discriminate | lia].
Defined.

(** ** The client's configuration, default server and opener *)

Section str_split_facts.
Import Stdlib.Strings.Ascii.
Import perkeep.
Implicit Types (s : string) (sep : ascii).







End str_split_facts.

Section client_facts.
Import Stdlib.Strings.Ascii.
Import perkeep.
Context {number : Type}.
Variable number_bool : number → bool.
Variable path_join : list string → string.
Variable json_load : string → error + json number.
Implicit Types (w : world) (g : globals number) (server : json number).

Lemma first_default_found (pre post : list (json number)) server d :
  Forall (not_default number_bool) pre →
  getitem server "default" = inr d → truth number_bool d = true →
  first_default number_bool (pre ++ server :: post) = inr server.
Proof.
  intros Hpre Hd Ht. induction Hpre as [|s pre (d' & Hd' & Ht') _ IH].
  - cbn [app first_default]. by rewrite Hd, Ht.
  - cbn [app first_default]. by rewrite Hd', Ht'.
Qed.

Lemma first_default_missing (servers : list (json number)) :
  Forall (not_default number_bool) servers →
  first_default number_bool servers
  = inl (Exception "No default server found").
Proof.
  intros Hall. induction Hall as [|s servers (d & Hd & Ht) _ IH]; [done|].
  cbn [first_default]. by rewrite Hd, Ht.
Qed.

Lemma first_default_inv (servers : list (json number)) server :
  first_default number_bool servers = inr server →
  ∃ pre post d,
    servers = pre ++ server :: post
    ∧ Forall (not_default number_bool) pre
    ∧ getitem server "default" = inr d ∧ truth number_bool d = true.
Proof.
  induction servers as [|s servers IH]; [done|].
  cbn [first_default].
  destruct (getitem s "default") as [e|d] eqn:Hd; [done|].
  destruct (truth number_bool d) eqn:Ht.
  - intros [= <-]. by exists [], servers, d.
  - intros (pre & post & d' & -> & Hpre & Hd' & Ht')%IH.
    exists (s :: pre), post, d'. split_and!; [done| |done|done].
    constructor; [by exists d | done].
Qed.

(** X15. Which server is the default one.  With a client configuration
    at hand whose ["servers"] entry is a dict, [get_default_server_config]
    returns the first server, in the order of the dict, whose ["default"]
    counts as true, provided every server before it has a ["default"]
    that counts as false; what comes after it is not looked at.  It
    returns a server in no other case, and raises ["No default server
    found"] when every server has a ["default"] that counts as false. *)
Theorem default_server_is_first_marked :
  ∀ w g g' (config : json number) (items : list (string * json number)),
    get_client_config path_join json_load w g = (inr config, g') →
    getitem config "servers" = inr (JDict items) →
    (∀ pre post name server d,
        items = pre ++ (name, server) :: post →
        Forall (not_default number_bool) (pre.*2) →
        getitem server "default" = inr d → truth number_bool d = true →
        get_default_server_config number_bool path_join json_load w g
        = (inr server, g'))
    ∧ (∀ server g'',
          get_default_server_config number_bool path_join json_load w g
          = (inr server, g'') →
          g'' = g'
          ∧ ∃ pre post d,
              items.*2 = pre ++ server :: post
              ∧ Forall (not_default number_bool) pre
              ∧ getitem server "default" = inr d
              ∧ truth number_bool d = true)
    ∧ (Forall (not_default number_bool) (items.*2) →
       get_default_server_config number_bool path_join json_load w g
       = (inl (Exception "No default server found"), g')).
Proof.
  intros w g g' config items Hconfig Hservers.
  unfold get_default_server_config. rewrite Hconfig, Hservers.
  cbn [values]. split_and!.
  - intros pre post name server d -> Hpre Hd Ht.
    rewrite fmap_app, fmap_cons. cbn [snd].
    by rewrite (first_default_found pre.*2 post.*2 server d).
  - intros server g'' [= Hfirst <-]. split; [done|].
    by apply first_default_inv.
  - intros Hall. by rewrite first_default_missing.
Qed.

(** X16. The client configuration is read once.  After a call of
    [get_client_config] that returned a configuration other than [None],
    every later call returns that configuration and changes no global,
    whatever the environment and the files have become.  A call that
    raised, or that read [null] from the file, has stored nothing: the
    globals are as before and the next call reads again. *)
Theorem client_config_is_cached :
  ∀ w g g' (r : error + json number),
    get_client_config path_join json_load w g = (r, g') →
    (∀ config, r = inr config → config ≠ JNone →
        ∀ w', get_client_config path_join json_load w' g'
              = (inr config, g'))
    ∧ (∀ e, r = inl e → g' = g ∧ client_config_cache g = JNone)
    ∧ (r = inr JNone → g' = g ∧ client_config_cache g = JNone).
Proof.
  intros w g g' r. unfold get_client_config.
  destruct g as [o cache]. cbn [client_config_cache perkeep_opener].
  destruct cache as [|b|n|s|l|d].
  { destruct (read_client_config path_join json_load w) as [e|config].
    - intros [= <- <-]. split_and!; [done| |done].
      by intros e' [= <-].
    - intros [= <- <-]. split_and!.
      + intros config' [= <-] Hne w'. cbn [client_config_cache].
        by destruct config.
      + done.
      + by intros [= ->]. }
  all: intros [= <- <-]; split_and!;
    [by intros config' [= <-] _ w' | done | done].
Qed.


End client_facts.

Lemma default_server_is_first_marked_witness :
  perkeep.get_default_server_config perkeep.nonzero perkeep.slash_join
    perkeep.example_json_load perkeep.example_world perkeep.fresh_globals
  = (inr perkeep.example_server,
     {| perkeep.perkeep_opener := None;
        perkeep.client_config_cache := perkeep.example_config |}).
Proof.
  destruct (default_server_is_first_marked perkeep.nonzero
              perkeep.slash_join perkeep.example_json_load
              perkeep.example_world perkeep.fresh_globals
              {| perkeep.perkeep_opener := None;
                 perkeep.client_config_cache := perkeep.example_config |}
              perkeep.example_config
              [("other", perkeep.example_other_server);
               ("local", perkeep.example_server)]
              eq_refl eq_refl) as (Hfound & _ & _).
  apply (Hfound [("other", perkeep.example_other_server)] [] "local"
           perkeep.example_server (perkeep.JBool true)).
  - reflexivity.
  - constructor; [|constructor].
    exists (perkeep.JBool false). split; reflexivity.
  - reflexivity.
  - reflexivity.
Defined.

Lemma client_config_is_cached_witness :
  perkeep.get_client_config perkeep.slash_join perkeep.example_json_load
    perkeep.empty_world
    {| perkeep.perkeep_opener := None;
       perkeep.client_config_cache := perkeep.example_config |}
  = (inr perkeep.example_config,
     {| perkeep.perkeep_opener := None;
        perkeep.client_config_cache := perkeep.example_config |}).
Proof.
  destruct (client_config_is_cached perkeep.slash_join
              perkeep.example_json_load perkeep.example_world
              perkeep.fresh_globals
              {| perkeep.perkeep_opener := None;
                 perkeep.client_config_cache := perkeep.example_config |}
              (inr perkeep.example_config) eq_refl) as (Hcached & _ & _).
  apply (Hcached perkeep.example_config eq_refl); discriminate.
Defined.


